(** * Voice-controlled note-taking app: the note store and the editor logic

    A shallow embedding of [src/main.py]: the [NoteDB] class (one SQLite
    table, [notes]) and the parts of [VoiceNoteApp] that decide what is
    written into the editor buffer and into the store.

    Conventions of the model.
    - A Python [str] is a list of code points ([text]); [str "..."] turns a
      literal into one.
    - The table [notes] is the list of its rows in rowid order, which is the
      order in which a full scan meets them, together with the counter that
      [AUTOINCREMENT] keeps in [sqlite_sequence].
    - [ORDER BY created_at DESC] is SQLite's sorter over that scan: a stable
      sort on the [TEXT] column, compared code point by code point.
    - [LIKE] is SQLite's built-in: [%] stands for any run of characters, [_]
      for any one character, letters A-Z match their lower-case forms, and
      both operands end at their first NUL character.
    - The clock reading [datetime.now().isoformat(sep=' ', timespec=
      'seconds')] is an input of [add_note].
    - Failures of the storage engine itself (I/O errors, an exhausted rowid
      space) are outside the model: every statement runs to completion. *)

From Stdlib Require Import List ZArith NArith Bool Lia String Ascii.
From Stdlib Require Import Permutation Sorted.
From Stdlib Require DecimalString.
Import ListNotations.

Set Implicit Arguments.

(** ** Text *)

Definition text := list N.

Definition str (s : string) : text :=
  map N_of_ascii (list_ascii_of_string s).

(** ** The Python string operations the program uses *)

Module Py.

Local Open Scope N_scope.

(** [str.isspace] on one character: the code points Python treats as
    whitespace, which are the ones [str.strip()] removes. *)
Definition isspace (c : N) : bool :=
  ((9 <=? c) && (c <=? 13)) || ((28 <=? c) && (c <=? 32))
  || (c =? 133) || (c =? 160) || (c =? 5760)
  || ((8192 <=? c) && (c <=? 8202))
  || (c =? 8232) || (c =? 8233) || (c =? 8239) || (c =? 8287)
  || (c =? 12288).

Fixpoint lstrip (s : text) : text :=
  match s with
  | c :: s' => if isspace c then lstrip s' else s
  | [] => []
  end.

Definition rstrip (s : text) : text := rev (lstrip (rev s)).

Definition strip (s : text) : text := rstrip (lstrip s).

(** Truth value of a string: [if s:] holds when [s] is not empty. *)
Definition truthy (s : text) : bool :=
  match s with [] => false | _ :: _ => true end.

(** [a or b] on strings. *)
Definition or_else (a b : text) : text := if truthy a then a else b.

(** The line boundaries of [str.splitlines]. *)
Definition is_linebreak (c : N) : bool :=
  ((10 <=? c) && (c <=? 13)) || ((28 <=? c) && (c <=? 30))
  || (c =? 133) || (c =? 8232) || (c =? 8233).

(** [splitlines_from after_cr cur s]: [cur] is the current line, reversed;
    [after_cr] says that the previous character was a carriage return, so
    that a line feed that follows belongs to the same boundary. *)
Fixpoint splitlines_from (after_cr : bool) (cur : text) (s : text)
  : list text :=
  match s with
  | [] => match cur with [] => [] | _ :: _ => [rev cur] end
  | c :: s' =>
      if after_cr && (c =? 10) then splitlines_from false cur s'
      else if is_linebreak c then rev cur :: splitlines_from (c =? 13) [] s'
      else splitlines_from false (c :: cur) s'
  end.

Definition splitlines (s : text) : list text := splitlines_from false [] s.

(** [s[:n]] *)
Definition slice_to (n : nat) (s : text) : text := firstn n s.

(** What a statement can raise in the modelled code. *)
Inductive exn := IndexError.

Inductive outcome (A : Type) :=
| Done (a : A)
| Raise (e : exn).
Arguments Done {A} a.
Arguments Raise {A} e.

(** [l[0]] *)
Definition item0 (l : list text) : outcome text :=
  match l with
  | x :: _ => Done x
  | [] => Raise IndexError
  end.

(** [l[i]] for an index that is not negative. *)
Definition item {A : Type} (l : list A) (i : nat) : outcome A :=
  match nth_error l i with
  | Some x => Done x
  | None => Raise IndexError
  end.

(** [s.replace(a, b)] for one-character [a] and [b]. *)
Definition replace_char (a b : N) (s : text) : text :=
  map (fun c => if c =? a then b else c) s.

(** [str(n)] for an integer. *)
Definition str_of_int (n : Z) : text :=
  str (DecimalString.NilZero.string_of_int (Z.to_int n)).

End Py.

(** ** The Tk widgets that hold text *)

Module Tk.

(** A [Text] widget is modelled by the characters in front of the newline
    that Tk keeps at its end. *)
Definition TextWidget := text.

(** [w.get("1.0", tk.END)]: everything, the final newline included. *)
Definition get_all (w : TextWidget) : text := w ++ [10%N].

(** [w.insert(tk.END, s)]: in front of the final newline. *)
Definition insert_end (w : TextWidget) (s : text) : TextWidget := w ++ s.

(** [w.delete("1.0", tk.END)] *)
Definition delete_all (w : TextWidget) : TextWidget := [].

End Tk.

(** ** The SQLite operators the queries use *)

Module Sqlite.

Local Open Scope N_scope.

(** A C string ends at its first NUL. *)
Fixpoint c_str (s : text) : text :=
  match s with
  | [] => []
  | c :: s' => if c =? 0 then [] else c :: c_str s'
  end.

(** [sqlite3Tolower]: only A-Z are folded. *)
Definition tolower (c : N) : N :=
  if (65 <=? c) && (c <=? 90) then c + 32 else c.

Definition percent : N := 37.
Definition underscore : N := 95.

(** [patternCompare] for [LIKE] without an [ESCAPE] clause. *)
Fixpoint like_match (p : text) : text -> bool :=
  match p with
  | [] => fun s => match s with [] => true | _ :: _ => false end
  | c :: p' =>
      if c =? percent then
        fix any_run (s : text) : bool :=
          like_match p' s
          || match s with [] => false | _ :: s' => any_run s' end
      else if c =? underscore then
        fun s => match s with [] => false | _ :: s' => like_match p' s' end
      else
        fun s =>
          match s with
          | [] => false
          | d :: s' => (tolower c =? tolower d) && like_match p' s'
          end
  end.

(** [x LIKE pat] *)
Definition like (x pat : text) : bool := like_match (c_str pat) (c_str x).

(** Comparison of two [TEXT] values under the default collation. *)
Fixpoint text_compare (a b : text) : comparison :=
  match a, b with
  | [], [] => Eq
  | [], _ :: _ => Lt
  | _ :: _, [] => Gt
  | x :: a', y :: b' =>
      match (x ?= y) with
      | Eq => text_compare a' b'
      | o => o
      end
  end.

Definition text_ltb (a b : text) : bool :=
  match text_compare a b with Lt => true | _ => false end.

End Sqlite.

(** ** [class NoteDB] *)

Module NoteDB.

Record Row := mkRow {
  id : Z;
  title : text;
  content : text;
  tags : text;
  created_at : text
}.

(** The database file: the rows of [notes] in rowid order and the value
    [sqlite_sequence] holds for the table. *)
Record t := mkDB {
  notes : list Row;
  seq : Z
}.

(** [_create_table] on a new file. *)
Definition empty : t := {| notes := []; seq := 0 |}.

Definition max_rowid (rows : list Row) : Z :=
  fold_right (fun r m => Z.max (id r) m) 0%Z rows.

(** The rowid an [AUTOINCREMENT] insert picks: one more than the largest
    rowid the table holds or has ever held. *)
Definition next_rowid (db : t) : Z :=
  (Z.max (seq db) (max_rowid (notes db)) + 1)%Z.

(** [ORDER BY created_at DESC]: [sorter_insert r l] puts [r], met by the
    scan before every row of [l], in front of the first row that is not
    strictly later than it. *)
Fixpoint sorter_insert (r : Row) (l : list Row) : list Row :=
  match l with
  | [] => [r]
  | x :: l' =>
      if Sqlite.text_ltb (created_at r) (created_at x)
      then x :: sorter_insert r l'
      else r :: l
  end.

Definition order_by_created_at_desc (rows : list Row) : list Row :=
  fold_right sorter_insert [] rows.

(** [add_note]: [ts] is the clock reading; the result is the new state and
    [cur.lastrowid]. *)
Definition add_note (db : t) (ts : text) (title content tags : text)
  : t * Z :=
  let nid := next_rowid db in
  ({| notes := notes db ++ [mkRow nid title content tags ts];
      seq := nid |}, nid).

Definition update_note (db : t) (note_id : Z) (title content tags : text)
  : t :=
  {| notes :=
       map (fun r =>
              if (id r =? note_id)%Z
              then mkRow (id r) title content tags (created_at r)
              else r)
           (notes db);
     seq := seq db |}.

Definition delete_note (db : t) (note_id : Z) : t :=
  {| notes := filter (fun r => negb (id r =? note_id)%Z) (notes db);
     seq := seq db |}.

Definition get_all_notes (db : t) : list Row :=
  order_by_created_at_desc (notes db).

(** [fetchone()]: the first row of the result, [None] when there is none. *)
Definition get_note_by_id (db : t) (note_id : Z) : option Row :=
  find (fun r => (id r =? note_id)%Z) (notes db).

Definition search_notes (db : t) (keyword : text) : list Row :=
  let kw := Sqlite.percent :: keyword ++ [Sqlite.percent] in
  order_by_created_at_desc
    (filter (fun r =>
               Sqlite.like (title r) kw
               || Sqlite.like (content r) kw
               || Sqlite.like (tags r) kw)
            (notes db)).

End NoteDB.

(** ** [class VoiceNoteApp] *)

Module VoiceNoteApp.

Import Py.

(** The state of the application object that the modelled methods read
    and write. *)
Record t := mkApp {
  db : NoteDB.t;
  microphone : bool;              (* a microphone was found *)
  listening : bool;
  search_entry : text;
  title_entry : text;
  tags_entry : text;
  content_text : Tk.TextWidget;
  notes_list : list text;         (* the lines of the list box *)
  notes_map : list Z;
  status_var : text;
  current_note_id : option Z;
  after_queue : list text;        (* texts handed to [root.after] *)
  dialogs : list (text * text)    (* message boxes shown: title, message *)
}.

Definition set_db (a : t) (d : NoteDB.t) : t :=
  mkApp d (microphone a) (listening a) (search_entry a) (title_entry a)
    (tags_entry a) (content_text a) (notes_list a) (notes_map a)
    (status_var a) (current_note_id a) (after_queue a) (dialogs a).

Definition set_listening (a : t) (b : bool) : t :=
  mkApp (db a) (microphone a) b (search_entry a) (title_entry a)
    (tags_entry a) (content_text a) (notes_list a) (notes_map a)
    (status_var a) (current_note_id a) (after_queue a) (dialogs a).

Definition set_content_text (a : t) (w : Tk.TextWidget) : t :=
  mkApp (db a) (microphone a) (listening a) (search_entry a) (title_entry a)
    (tags_entry a) w (notes_list a) (notes_map a)
    (status_var a) (current_note_id a) (after_queue a) (dialogs a).

Definition set_notes_list (a : t) (lines : list text) (ids : list Z) : t :=
  mkApp (db a) (microphone a) (listening a) (search_entry a) (title_entry a)
    (tags_entry a) (content_text a) lines ids
    (status_var a) (current_note_id a) (after_queue a) (dialogs a).

Definition set_status (a : t) (s : text) : t :=
  mkApp (db a) (microphone a) (listening a) (search_entry a) (title_entry a)
    (tags_entry a) (content_text a) (notes_list a) (notes_map a)
    s (current_note_id a) (after_queue a) (dialogs a).

Definition set_current_note_id (a : t) (n : option Z) : t :=
  mkApp (db a) (microphone a) (listening a) (search_entry a) (title_entry a)
    (tags_entry a) (content_text a) (notes_list a) (notes_map a)
    (status_var a) n (after_queue a) (dialogs a).

Definition set_after_queue (a : t) (q : list text) : t :=
  mkApp (db a) (microphone a) (listening a) (search_entry a) (title_entry a)
    (tags_entry a) (content_text a) (notes_list a) (notes_map a)
    (status_var a) (current_note_id a) q (dialogs a).

Definition messagebox (a : t) (title msg : text) : t :=
  mkApp (db a) (microphone a) (listening a) (search_entry a) (title_entry a)
    (tags_entry a) (content_text a) (notes_list a) (notes_map a)
    (status_var a) (current_note_id a) (after_queue a)
    (dialogs a ++ [(title, msg)]).

(** One line of the list box. *)
Definition display (row : NoteDB.Row) : text :=
  or_else (NoteDB.title row) (str "(no title)")
  ++ [32; 226; 8364; 8221; 32]%N
  ++ slice_to 19 (NoteDB.created_at row).

Definition load_notes (a : t) (notes : option (list NoteDB.Row)) : t :=
  let notes :=
    match notes with
    | None => NoteDB.get_all_notes (db a)
    | Some l => l
    end in
  set_notes_list a (map display notes) (map NoteDB.id notes).

(** The application right after [__init__] on database [d]: empty editor,
    the list box filled by [load_notes]. *)
Definition init (d : NoteDB.t) (mic : bool) : t :=
  load_notes
    (mkApp d mic false (str "search... (press Enter)") [] [] [] [] []
       (str "Ready") None [] [])
    None.

Definition search_notes (a : t) : t :=
  let q := strip (search_entry a) in
  if negb (truthy q) then load_notes a None
  else
    let found := NoteDB.search_notes (db a) q in
    load_notes a (Some found).

(** *** Recording *)

(** What [recognizer.recognize_google(audio)] does on one phrase. *)
Inductive recognition :=
| Recognized (transcript : text)
| UnknownValueError                 (* nothing recognized *)
| OtherException (message : text).  (* any other exception, [str(e)] *)

(** [toggle_recording]; [sr_available] is the module constant
    [SR_AVAILABLE], [start_error] the message of the exception that
    [listen_in_background] raised, if it raised one. *)
Definition toggle_recording (sr_available : bool)
    (start_error : option text) (a : t) : t :=
  if negb sr_available then
    messagebox a (str "Missing Dependency")
      (str "SpeechRecognition is not installed. See README for setup.")
  else if negb (microphone a) then
    messagebox a (str "Microphone")
      (str "No working microphone found or PyAudio not installed. See README.")
  else if negb (listening a) then
    match start_error with
    | None =>
        set_status (set_listening a true)
          (str "Recording... (background). Click Stop to finish.")
    | Some e => messagebox a (str "Recording Error") e
    end
  else
    set_status (set_listening a false) (str "Stopped recording").

(** The text [_callback] ends up with for a phrase. *)
Definition callback_text (r : recognition) : text :=
  match r with
  | Recognized transcript => transcript
  | UnknownValueError => []
  | OtherException e => str "[error: " ++ e ++ str "]"
  end.

(** [_callback], run by the listener thread: a text that is not empty is
    handed to the main loop. *)
Definition _callback (a : t) (r : recognition) : t :=
  let text := callback_text r in
  if truthy text then set_after_queue a (after_queue a ++ [text])
  else a.

Definition _append_text (a : t) (text : text) : t :=
  let cur := content_text a in
  let a' :=
    if truthy (strip (Tk.get_all cur))
    then set_content_text a (Tk.insert_end cur (32%N :: text))
    else set_content_text a (Tk.insert_end cur text) in
  set_status a' (str "Transcribed a phrase").

(** The main loop runs the oldest call that [root.after(0, ...)] queued. *)
Definition run_after (a : t) : t :=
  match after_queue a with
  | [] => a
  | text :: q => _append_text (set_after_queue a q) text
  end.

(** What happens during a recording: the listener thread reports a phrase,
    or the main loop gets to run one queued call. *)
Inductive event :=
| Phrase (r : recognition)
| MainLoop.

Definition step (a : t) (e : event) : t :=
  match e with
  | Phrase r => _callback a r
  | MainLoop => run_after a
  end.

Definition run (es : list event) (a : t) : t := fold_left step es a.

(** The main loop, left alone, empties the queue. *)
Definition drain (a : t) : t :=
  fold_left (fun a' _ => run_after a') (after_queue a) a.

(** *** Save *)

(** [save_note]; [ts] is the clock reading [add_note] takes if it runs. *)
Definition save_note (ts : text) (a : t) : outcome t :=
  let title := strip (title_entry a) in
  let tags := strip (tags_entry a) in
  let content := strip (Tk.get_all (content_text a)) in
  if negb (truthy content) then
    Done (messagebox a (str "Save") (str "Note content is empty"))
  else
    let title' :=
      if negb (truthy title) then
        if truthy (strip content) then
          match item0 (splitlines (strip content)) with
          | Done line => Done (slice_to 60 line)
          | Raise e => Raise e
          end
        else Done (str "(no title)")
      else Done title in
    match title' with
    | Raise e => Raise e
    | Done title =>
        let a' :=
          match current_note_id a with
          | None =>
              let (d, nid) := NoteDB.add_note (db a) ts title content tags in
              set_status (set_current_note_id (set_db a d) (Some nid))
                (str "Saved new note")
          | Some n =>
              set_status
                (set_db a (NoteDB.update_note (db a) n title content tags))
                (str "Updated note")
          end in
        Done (load_notes a' None)
    end.

(** *** The other handlers *)

Definition set_search_entry (a : t) (s : text) : t :=
  mkApp (db a) (microphone a) (listening a) s (title_entry a)
    (tags_entry a) (content_text a) (notes_list a) (notes_map a)
    (status_var a) (current_note_id a) (after_queue a) (dialogs a).

Definition set_title_entry (a : t) (s : text) : t :=
  mkApp (db a) (microphone a) (listening a) (search_entry a) s
    (tags_entry a) (content_text a) (notes_list a) (notes_map a)
    (status_var a) (current_note_id a) (after_queue a) (dialogs a).

Definition set_tags_entry (a : t) (s : text) : t :=
  mkApp (db a) (microphone a) (listening a) (search_entry a) (title_entry a)
    s (content_text a) (notes_list a) (notes_map a)
    (status_var a) (current_note_id a) (after_queue a) (dialogs a).

Definition new_note (a : t) : t :=
  let a1 := set_current_note_id a None in
  let a2 := set_title_entry a1 [] in
  let a3 := set_tags_entry a2 [] in
  let a4 := set_content_text a3 (Tk.delete_all (content_text a3)) in
  set_status a4 (str "New blank note").

(** [on_select_note]; [sel] is what [curselection()] returns. *)
Definition on_select_note (sel : list nat) (a : t) : outcome t :=
  match sel with
  | [] => Done a
  | idx :: _ =>
      match item (notes_map a) idx with
      | Raise e => Raise e
      | Done note_id =>
          match NoteDB.get_note_by_id (db a) note_id with
          | None => Done a
          | Some row =>
              let a1 := set_current_note_id a (Some (NoteDB.id row)) in
              let a2 := set_title_entry a1 (or_else (NoteDB.title row) []) in
              let a3 := set_tags_entry a2 (or_else (NoteDB.tags row) []) in
              let a4 :=
                set_content_text a3
                  (Tk.insert_end (Tk.delete_all (content_text a3))
                     (or_else (NoteDB.content row) [])) in
              Done (set_status a4
                      (str "Loaded note " ++ str_of_int (NoteDB.id row)))
          end
      end
  end.

(** [delete_note]; [confirm] is the answer to the question it asks. *)
Definition delete_note (sel : list nat) (confirm : bool) (a : t)
  : outcome t :=
  match sel with
  | [] => Done (messagebox a (str "Delete") (str "Select a note to delete"))
  | idx :: _ =>
      match item (notes_map a) idx with
      | Raise e => Raise e
      | Done note_id =>
          let a1 := messagebox a (str "Confirm") (str "Delete selected note?") in
          if confirm then
            let a2 := set_db a1 (NoteDB.delete_note (db a1) note_id) in
            let a3 := load_notes a2 None in
            let a4 := new_note a3 in
            Done (set_status a4 (str "Note deleted"))
          else Done a1
      end
  end.

(** The name [export_note] proposes for the file. *)
Definition export_default_name (row : NoteDB.Row) : text :=
  slice_to 40 (replace_char 32 95 (or_else (NoteDB.title row) (str "note")))
  ++ str ".txt".

(** The text [export_note] writes. *)
Definition export_text (row : NoteDB.Row) : text :=
  str "Title: " ++ NoteDB.title row ++ [10%N]
  ++ str "Tags: " ++ NoteDB.tags row ++ [10%N]
  ++ str "Created: " ++ NoteDB.created_at row ++ [10%N; 10%N]
  ++ NoteDB.content row.

(** [export_note]; [asksaveasfilename] gives the path the user picks for a
    proposed name, empty when the dialog is cancelled. The second component
    is the file written, path and text, if one is. *)
Definition export_note (asksaveasfilename : text -> text) (a : t)
  : t * option (text * text) :=
  match current_note_id a with
  | None =>
      (messagebox a (str "Export") (str "Select or save a note first"), None)
  | Some n =>
      match NoteDB.get_note_by_id (db a) n with
      | None => (messagebox a (str "Export") (str "Note not found"), None)
      | Some row =>
          let path := asksaveasfilename (export_default_name row) in
          if truthy path then
            (messagebox a (str "Exported") (str "Exported to " ++ path),
             Some (path, export_text row))
          else (a, None)
      end
  end.

(** [play_note]; [tts_available] is the module constant [TTS_AVAILABLE].
    The second component is the text handed to the speech engine, if any. *)
Definition play_note (tts_available : bool) (a : t) : t * option text :=
  let content := strip (Tk.get_all (content_text a)) in
  if negb (truthy content) then
    (messagebox a (str "Play") (str "Nothing to read"), None)
  else if negb tts_available then
    (messagebox a (str "Missing Dependency")
       (str "pyttsx3 is not installed. See README."), None)
  else (a, Some content).

(** *** What can happen to the application *)

Inductive action :=
| TypeSearch (s : text)                 (* the user edits the search field *)
| TypeTitle (s : text)
| TypeTags (s : text)
| EditContent (w : Tk.TextWidget)       (* the user edits the editor *)
| PressReturnInSearch
| ClickNew
| ClickDelete (sel : list nat) (confirm : bool)
| ClickExport (asksaveasfilename : text -> text)
| SelectNote (sel : list nat)
| ClickRecord (start_error : option text)
| ClickPlay
| ClickSave (ts : text)
| ClickRefresh
| Heard (r : recognition)               (* the listener thread calls back *)
| Turn.                                 (* the main loop runs a queued call *)

Definition perform (sr_available tts_available : bool) (act : action) (a : t)
  : outcome t :=
  match act with
  | TypeSearch s => Done (set_search_entry a s)
  | TypeTitle s => Done (set_title_entry a s)
  | TypeTags s => Done (set_tags_entry a s)
  | EditContent w => Done (set_content_text a w)
  | PressReturnInSearch => Done (search_notes a)
  | ClickNew => Done (new_note a)
  | ClickDelete sel confirm => delete_note sel confirm a
  | ClickExport ask => Done (fst (export_note ask a))
  | SelectNote sel => on_select_note sel a
  | ClickRecord start_error =>
      Done (toggle_recording sr_available start_error a)
  | ClickPlay => Done (fst (play_note tts_available a))
  | ClickSave ts => save_note ts a
  | ClickRefresh => Done (load_notes a None)
  | Heard r => Done (_callback a r)
  | Turn => Done (run_after a)
  end.

(** A run of the application: one thing after the other, up to the first
    exception. *)
Fixpoint perform_all (sr_available tts_available : bool)
    (acts : list action) (a : t) : outcome t :=
  match acts with
  | [] => Done a
  | act :: rest =>
      match perform sr_available tts_available act a with
      | Done a' => perform_all sr_available tts_available rest a'
      | Raise e => Raise e
      end
  end.

End VoiceNoteApp.

(** ** The notions the properties are stated with *)

Module Spec.

Import NoteDB.

(** A text with nothing but whitespace in it (the empty text included). *)
Definition blank (s : text) : bool := forallb Py.isspace s.

(** The characters of [s] in front of its first line boundary. *)
Fixpoint first_line (s : text) : text :=
  match s with
  | [] => []
  | c :: s' => if Py.is_linebreak c then [] else c :: first_line s'
  end.

(** [k] is a prefix of [s] up to the case of the letters A-Z. *)
Fixpoint prefix_ci (k s : text) : bool :=
  match k, s with
  | [], _ => true
  | _ :: _, [] => false
  | c :: k', d :: s' =>
      (Sqlite.tolower c =? Sqlite.tolower d)%N && prefix_ci k' s'
  end.

(** [k] occurs in [s] as a substring, up to the case of the letters A-Z. *)
Fixpoint contains_ci (k s : text) : bool :=
  prefix_ci k s
  || match s with [] => false | _ :: s' => contains_ci k s' end.

(** A keyword with no [%], no [_] and no NUL in it. *)
Definition plain (k : text) : bool :=
  forallb (fun c => negb (c =? Sqlite.percent)%N
                    && negb (c =? Sqlite.underscore)%N
                    && negb (c =? 0)%N) k.

(** The rows of the table are held in the order of their rowids. *)
Definition rowid_order (db : NoteDB.t) : Prop :=
  StronglySorted (fun a b => (id a < id b)%Z) (notes db).

(** The states the program can bring a new database file into. *)
Inductive reachable : NoteDB.t -> Prop :=
| reach_empty : reachable NoteDB.empty
| reach_add db ts ti co ta :
    reachable db -> reachable (fst (add_note db ts ti co ta))
| reach_update db n ti co ta :
    reachable db -> reachable (update_note db n ti co ta)
| reach_delete db n :
    reachable db -> reachable (delete_note db n).

Definition created_before (a b : Row) : Prop :=
  Sqlite.text_compare (created_at a) (created_at b) = Lt.

(** [a] may be listed in front of [b]: not created before it. *)
Definition newest_first (a b : Row) : Prop :=
  Sqlite.text_ltb (created_at a) (created_at b) = false.

(** [a] is listed in front of [b] when it was created later, or at the
    same time with the lower id. *)
Definition newest_then_lowest_id (a b : Row) : Prop :=
  created_before b a \/ (created_at a = created_at b /\ (id a < id b)%Z).

(** [a] is listed in front of [b] when it was created later, or at the
    same time with the higher id. *)
Definition newest_then_highest_id (a b : Row) : Prop :=
  created_before b a \/ (created_at a = created_at b /\ (id b < id a)%Z).

(** What appending a fragment does to the text of the editor: a space
    goes in between when the editor holds something else than
    whitespace. *)
Definition append_fragment (buffer fragment : text) : text :=
  if blank buffer then buffer ++ fragment
  else buffer ++ 32%N :: fragment.

(** The fragments a phrase contributes: its transcript, nothing when
    nothing was recognized, a bracketed error text when the call failed. *)
Definition fragments_of (r : VoiceNoteApp.recognition) : list text :=
  match r with
  | VoiceNoteApp.Recognized transcript =>
      match transcript with [] => [] | _ :: _ => [transcript] end
  | VoiceNoteApp.UnknownValueError => []
  | VoiceNoteApp.OtherException e => [str "[error: " ++ e ++ str "]"]
  end.

Definition fragments (es : list VoiceNoteApp.event) : list text :=
  flat_map (fun e => match e with
                     | VoiceNoteApp.Phrase r => fragments_of r
                     | VoiceNoteApp.MainLoop => []
                     end) es.

(** The text the editor holds once the queued calls have run. *)
Definition settled (a : VoiceNoteApp.t) : text :=
  fold_left append_fragment (VoiceNoteApp.after_queue a)
    (VoiceNoteApp.content_text a).

(** A row matches keyword [k]: [k] occurs in what the engine reads of its
    title, of its content or of its tags. *)
Definition mentions (k : text) (r : Row) : bool :=
  contains_ci k (Sqlite.c_str (title r))
  || contains_ci k (Sqlite.c_str (content r))
  || contains_ci k (Sqlite.c_str (tags r)).

(** A row is a hit of [search_notes] for keyword [k]. *)
Definition hit (k : text) (r : Row) : bool :=
  let kw := Sqlite.percent :: k ++ [Sqlite.percent] in
  Sqlite.like (title r) kw || Sqlite.like (content r) kw
  || Sqlite.like (tags r) kw.

(** Some row has id [n]. *)
Definition stored (db : NoteDB.t) (n : Z) : Prop :=
  exists r, get_note_by_id db n = Some r.

(** What holds of the application between any two handlers: the list box
    and the id list run in step, every listed id and the current id name a
    stored note, nothing empty waits to be appended, recording needs a
    microphone, and the table is in rowid order. *)
Record consistent (a : VoiceNoteApp.t) : Prop := {
  list_in_step :
    List.length (VoiceNoteApp.notes_list a)
    = List.length (VoiceNoteApp.notes_map a);
  listed_stored :
    forall n, In n (VoiceNoteApp.notes_map a) ->
              stored (VoiceNoteApp.db a) n;
  current_stored :
    forall n, VoiceNoteApp.current_note_id a = Some n ->
              stored (VoiceNoteApp.db a) n;
  queue_not_empty :
    Forall (fun t => t <> []) (VoiceNoteApp.after_queue a);
  recording_has_microphone :
    VoiceNoteApp.listening a = true -> VoiceNoteApp.microphone a = true;
  table_in_rowid_order : rowid_order (VoiceNoteApp.db a)
}.

(** The title [save_note] stores. *)
Definition saved_title (a : VoiceNoteApp.t) : text :=
  if blank (VoiceNoteApp.title_entry a)
  then firstn 60 (first_line (Py.strip (VoiceNoteApp.content_text a)))
  else Py.strip (VoiceNoteApp.title_entry a).

(** The fragments, each with a space in front. *)
Definition spaced (ts : list text) : text :=
  flat_map (fun t => 32%N :: t) ts.

(** The line a handler is told is selected is a line of the list box. *)
Definition selection_in_range (act : VoiceNoteApp.action)
    (a : VoiceNoteApp.t) : Prop :=
  match act with
  | VoiceNoteApp.ClickDelete (idx :: _) _
  | VoiceNoteApp.SelectNote (idx :: _) =>
      (idx < List.length (VoiceNoteApp.notes_list a))%nat
  | _ => True
  end.

(** The handlers that write to the database. *)
Definition writes_store (act : VoiceNoteApp.action) : bool :=
  match act with
  | VoiceNoteApp.ClickSave _ => true
  | VoiceNoteApp.ClickDelete _ confirm => confirm
  | _ => false
  end.

End Spec.

(** ** Sample states *)

Module Samples.

Import NoteDB VoiceNoteApp.

Definition noon : text := str "2024-05-01 12:00:00".
Definition one_past_noon : text := str "2024-05-01 12:00:01".

(** Two notes saved within the same second, a third one later. *)
Definition db1 : NoteDB.t :=
  fst (add_note NoteDB.empty noon (str "first") (str "milk") (str "shop")).
Definition db2 : NoteDB.t :=
  fst (add_note db1 noon (str "second") (str "Bread and jam") (str "shop")).
Definition db3 : NoteDB.t :=
  fst (add_note db2 one_past_noon (str "third") (str "call bob") (str "todo")).

(** A new application on a new database file. *)
Definition app0 : VoiceNoteApp.t := VoiceNoteApp.init NoteDB.empty true.

(** The same application with [w] typed into the editor. *)
Definition typed (w : text) : VoiceNoteApp.t := set_content_text app0 w.

(** An application on [db3] with two spaces in the search field. *)
Definition searching : VoiceNoteApp.t :=
  mkApp db3 true false (str "  ") [] [] [] [] [] [] None [] [].

(** Three phrases, the second of which fails in the recognition call. *)
Definition three_phrases : list event :=
  [Phrase (Recognized (str "one"));
   Phrase (OtherException (str "timed out"));
   Phrase (Recognized (str "three"))].

(** The first and the third of them alone. *)
Definition two_phrases : list event :=
  [Phrase (Recognized (str "one")); Phrase (Recognized (str "three"))].

End Samples.

(** * Facts about the string operations *)

Unset Implicit Arguments.

Section PyFacts.

Import Py.

Lemma lstrip_head (s : text) c r :
  lstrip s = c :: r -> isspace c = false.
Proof.
  induction s as [|d s IH]; simpl; [discriminate|].
  destruct (isspace d) eqn:E; [exact IH|].
  intros H; injection H as -> _; exact E.
Qed.

Lemma lstrip_fixed c r : isspace c = false -> lstrip (c :: r) = c :: r.
Proof. intros H; simpl; now rewrite H. Qed.

Lemma lstrip_idem (s : text) : lstrip (lstrip s) = lstrip s.
Proof.
  destruct (lstrip s) as [|c r] eqn:E; [reflexivity|].
  apply lstrip_fixed, (lstrip_head s _ _ E).
Qed.

Lemma lstrip_snoc (s : text) c :
  isspace c = false -> lstrip (s ++ [c]) = lstrip s ++ [c].
Proof.
  intros H; induction s as [|d s IH]; simpl.
  - now rewrite H.
  - destruct (isspace d); [exact IH | reflexivity].
Qed.

Lemma lstrip_nil_blank (s : text) :
  lstrip s = [] <-> Spec.blank s = true.
Proof.
  unfold Spec.blank; induction s as [|d s IH]; simpl; [tauto|].
  destruct (isspace d); simpl; [exact IH|].
  split; discriminate.
Qed.

(** Stripping a text that starts with a character that stays. *)
Lemma strip_cons (s : text) c r :
  lstrip s = c :: r -> strip s = c :: rev (lstrip (rev r)).
Proof.
  intros E; unfold strip, rstrip; rewrite E; simpl.
  rewrite (lstrip_snoc _ _ (lstrip_head s _ _ E)).
  now rewrite rev_app_distr.
Qed.

Lemma strip_blank (s : text) : Spec.blank s = true -> strip s = [].
Proof.
  intros H; apply lstrip_nil_blank in H.
  unfold strip; now rewrite H.
Qed.

Lemma truthy_strip (s : text) : truthy (strip s) = negb (Spec.blank s).
Proof.
  destruct (lstrip s) as [|c r] eqn:E.
  - assert (B : Spec.blank s = true) by now apply lstrip_nil_blank.
    now rewrite (strip_blank s B), B.
  - rewrite (strip_cons s _ _ E); simpl.
    destruct (Spec.blank s) eqn:B; [|reflexivity].
    apply lstrip_nil_blank in B; congruence.
Qed.

Lemma strip_head (s : text) c r : strip s = c :: r -> isspace c = false.
Proof.
  destruct (lstrip s) as [|d q] eqn:E.
  - unfold strip; rewrite E; discriminate.
  - rewrite (strip_cons s _ _ E); intros H; injection H as <- _.
    apply (lstrip_head s _ _ E).
Qed.

Lemma strip_idem (s : text) : strip (strip s) = strip s.
Proof.
  destruct (lstrip s) as [|c r] eqn:E.
  - assert (H : strip s = []) by (unfold strip; now rewrite E).
    now rewrite H.
  - rewrite (strip_cons s _ _ E).
    rewrite (strip_cons _ c (rev (lstrip (rev r)))).
    + now rewrite rev_involutive, lstrip_idem.
    + apply lstrip_fixed, (lstrip_head s _ _ E).
Qed.

Lemma blank_get_all (w : Tk.TextWidget) :
  Spec.blank (Tk.get_all w) = Spec.blank w.
Proof.
  unfold Spec.blank, Tk.get_all; rewrite forallb_app; simpl.
  now rewrite andb_true_r.
Qed.

End PyFacts.

Section SplitlinesFacts.

Import Py.

Lemma splitlines_from_first (s cur : text) :
  cur <> [] \/ s <> [] ->
  exists rest,
    splitlines_from false cur s = (rev cur ++ Spec.first_line s) :: rest.
Proof.
  revert cur; induction s as [|c s IH]; intros cur H.
  - destruct cur as [|d cur]; [destruct H; congruence|].
    exists []; simpl; now rewrite app_nil_r.
  - simpl; destruct (is_linebreak c).
    + eexists; now rewrite app_nil_r.
    + destruct (IH (c :: cur)) as [rest E]; [left; discriminate|].
      exists rest; rewrite E; simpl; now rewrite <- app_assoc.
Qed.

(** [s.splitlines()[0]] of a text that is not empty is its first line. *)
Lemma item0_splitlines (s : text) :
  s <> [] -> item0 (splitlines s) = Done (Spec.first_line s).
Proof.
  intros H; unfold splitlines.
  destruct (splitlines_from_first s []) as [rest E]; [now right|].
  now rewrite E.
Qed.

End SplitlinesFacts.

(** * Facts about [LIKE] *)

Section LikeFacts.

Import Sqlite.

Lemma like_match_percent (p s : text) :
  like_match (percent :: p) s
  = like_match p s
    || match s with [] => false | _ :: s' => like_match (percent :: p) s' end.
Proof. destruct s; reflexivity. Qed.

Lemma like_match_percent_nil (s : text) : like_match [percent] s = true.
Proof.
  induction s as [|c s IH]; rewrite like_match_percent; [reflexivity|].
  now rewrite IH, orb_true_r.
Qed.

(** The pattern [%%] matches every text. *)
Lemma like_any (x : text) : like x [percent; percent] = true.
Proof.
  unfold like; simpl c_str.
  now rewrite like_match_percent, like_match_percent_nil.
Qed.

Lemma plain_cons c k :
  Spec.plain (c :: k) = true ->
  (c =? percent)%N = false /\ (c =? underscore)%N = false
  /\ (c =? 0)%N = false /\ Spec.plain k = true.
Proof.
  unfold Spec.plain; simpl; intros H.
  apply andb_true_iff in H; destruct H as [H Hk].
  apply andb_true_iff in H; destruct H as [H H0].
  apply andb_true_iff in H; destruct H as [Hp Hu].
  repeat split; try assumption; now apply negb_true_iff.
Qed.

Lemma c_str_pattern (k : text) :
  Spec.plain k = true ->
  c_str (percent :: k ++ [percent]) = percent :: k ++ [percent].
Proof.
  intros H; simpl; f_equal.
  induction k as [|c k IH]; [reflexivity|].
  apply plain_cons in H; destruct H as (_ & _ & H0 & Hk).
  simpl; rewrite H0; f_equal; auto.
Qed.

Lemma like_match_plain_prefix (k s : text) :
  Spec.plain k = true ->
  like_match (k ++ [percent]) s = Spec.prefix_ci k s.
Proof.
  revert s; induction k as [|c k IH]; intros s H.
  - apply like_match_percent_nil.
  - apply plain_cons in H; destruct H as (Hp & Hu & _ & Hk).
    simpl; rewrite Hp, Hu.
    destruct s as [|d s]; [reflexivity|].
    now rewrite (IH s Hk).
Qed.

Lemma like_match_plain_contains (k s : text) :
  Spec.plain k = true ->
  like_match (percent :: k ++ [percent]) s = Spec.contains_ci k s.
Proof.
  intros H; induction s as [|d s IH]; rewrite like_match_percent;
    rewrite (like_match_plain_prefix k _ H).
  - reflexivity.
  - rewrite IH.
    destruct k; reflexivity.
Qed.

(** With a plain keyword, [x LIKE '%k%'] looks for [k] in [x] up to the
    case of A-Z, in what the engine reads of [x]. *)
Lemma like_plain (x k : text) :
  Spec.plain k = true ->
  like x (percent :: k ++ [percent]) = Spec.contains_ci k (c_str x).
Proof.
  intros H; unfold like.
  rewrite (c_str_pattern k H).
  now apply like_match_plain_contains.
Qed.

Lemma prefix_ci_iff (k s : text) :
  Spec.prefix_ci k s = true <->
  exists mid post, s = mid ++ post /\ map tolower mid = map tolower k.
Proof.
  revert s; induction k as [|c k IH]; intros s; simpl.
  - split; [intros _; now exists [], s|reflexivity].
  - destruct s as [|d s].
    + split; [discriminate|].
      intros (mid & post & E & M).
      destruct mid; [discriminate M | discriminate E].
    + rewrite andb_true_iff, N.eqb_eq, IH; split.
      * intros (Hc & mid & post & E & M).
        exists (d :: mid), post; simpl; split; congruence.
      * intros (mid & post & E & M).
        destruct mid as [|e mid]; [discriminate M|].
        simpl in E, M; injection E as -> ->; injection M as Hc M.
        split; [congruence|now exists mid, post].
Qed.

(** [contains_ci] decides the substring relation. *)
Lemma contains_ci_iff (k s : text) :
  Spec.contains_ci k s = true <->
  exists pre mid post,
    s = pre ++ mid ++ post /\ map tolower mid = map tolower k.
Proof.
  induction s as [|d s IH]; simpl; rewrite orb_true_iff, prefix_ci_iff.
  - split.
    + intros [(mid & post & E & M)|H]; [|discriminate].
      now exists [], mid, post.
    + intros (pre & mid & post & E & M); left.
      destruct pre; [|discriminate E].
      now exists mid, post.
  - rewrite IH; split.
    + intros [(mid & post & E & M)|(pre & mid & post & E & M)].
      * now exists [], mid, post.
      * exists (d :: pre), mid, post; simpl; split; congruence.
    + intros (pre & mid & post & E & M).
      destruct pre as [|e pre]; simpl in E.
      * left; now exists mid, post.
      * injection E as -> ->; right; now exists pre, mid, post.
Qed.

End LikeFacts.

(** * Facts about the order of [TEXT] values and about the sorter *)

Section OrderFacts.

Import Sqlite.

Lemma text_compare_eq (a b : text) : text_compare a b = Eq -> a = b.
Proof.
  revert b; induction a as [|x a IH]; intros [|y b]; simpl;
    try discriminate; [reflexivity|].
  destruct (N.compare_spec x y) as [E|L|G]; try discriminate.
  intros H; f_equal; auto.
Qed.

Lemma text_compare_refl (a : text) : text_compare a a = Eq.
Proof.
  induction a as [|x a IH]; simpl; [reflexivity|].
  now rewrite N.compare_refl.
Qed.

Lemma text_compare_antisym (a b : text) :
  text_compare b a = CompOpp (text_compare a b).
Proof.
  revert b; induction a as [|x a IH]; intros [|y b]; simpl;
    try reflexivity.
  rewrite (N.compare_antisym x y).
  destruct (x ?= y)%N; simpl; auto.
Qed.

Lemma text_lt_trans (a b c : text) :
  text_compare a b = Lt -> text_compare b c = Lt -> text_compare a c = Lt.
Proof.
  revert b c; induction a as [|x a IH]; intros [|y b] [|z c]; simpl;
    try discriminate; try reflexivity.
  destruct (N.compare_spec x y) as [E|L|G]; try discriminate.
  - subst y; destruct (x ?= z)%N; try discriminate; eauto.
  - intros _; destruct (N.compare_spec y z) as [E|L'|G]; try discriminate.
    + subst z; intros _.
      apply N.compare_lt_iff in L; now rewrite L.
    + intros _.
      assert (L2 : (x < z)%N) by lia.
      apply N.compare_lt_iff in L2; now rewrite L2.
Qed.

Lemma text_lt_irrefl (a : text) : text_compare a a <> Lt.
Proof. rewrite text_compare_refl; discriminate. Qed.

End OrderFacts.

Section SorterFacts.

Import NoteDB Spec.

Lemma newest_first_cases (a b : Row) :
  newest_first a b <-> created_before b a \/ created_at a = created_at b.
Proof.
  unfold newest_first, created_before, Sqlite.text_ltb.
  rewrite (text_compare_antisym (created_at a) (created_at b)).
  destruct (Sqlite.text_compare (created_at a) (created_at b)) eqn:E; simpl.
  - apply text_compare_eq in E; tauto.
  - split; [discriminate|].
    intros [H|H]; [discriminate|].
    rewrite H, text_compare_refl in E; discriminate.
  - tauto.
Qed.

Lemma newest_first_trans (a b c : Row) :
  newest_first a b -> newest_first b c -> newest_first a c.
Proof.
  rewrite !newest_first_cases; unfold created_before.
  intros [H1|H1] [H2|H2].
  - left; eapply text_lt_trans; eauto.
  - left; congruence.
  - left; congruence.
  - right; congruence.
Qed.

Lemma sorter_insert_perm (r : Row) (l : list Row) :
  Permutation (sorter_insert r l) (r :: l).
Proof.
  induction l as [|x l IH]; simpl; [reflexivity|].
  destruct (Sqlite.text_ltb (created_at r) (created_at x)); [|reflexivity].
  rewrite IH; apply perm_swap.
Qed.

Lemma order_by_perm (rows : list Row) :
  Permutation (order_by_created_at_desc rows) rows.
Proof.
  induction rows as [|r rows IH]; simpl; [reflexivity|].
  rewrite sorter_insert_perm; now constructor.
Qed.

(** A row that is not older than any row of [l] goes in front. *)
Lemma sorter_insert_front (r : Row) (l : list Row) :
  Forall (newest_first r) l -> sorter_insert r l = r :: l.
Proof.
  intros H; destruct l as [|x l]; [reflexivity|].
  inversion_clear H as [|? ? Hx _]; simpl.
  unfold newest_first in Hx; now rewrite Hx.
Qed.

Lemma sorter_insert_sorted (r : Row) (l : list Row) :
  StronglySorted newest_first l ->
  StronglySorted newest_first (sorter_insert r l).
Proof.
  induction 1 as [|x l S IH F]; simpl.
  - repeat constructor.
  - destruct (Sqlite.text_ltb (created_at r) (created_at x)) eqn:E.
    + constructor; [exact IH|].
      rewrite sorter_insert_perm; constructor; [|exact F].
      apply newest_first_cases; left.
      unfold created_before, Sqlite.text_ltb in *.
      destruct (Sqlite.text_compare (created_at r) (created_at x));
        congruence.
    + constructor; [now constructor|].
      constructor; [exact E|].
      eapply Forall_impl; [|exact F].
      intros y Hy; eapply newest_first_trans; eauto.
Qed.

Lemma order_by_sorted (rows : list Row) :
  StronglySorted newest_first (order_by_created_at_desc rows).
Proof.
  induction rows as [|r rows IH]; simpl; [constructor|].
  now apply sorter_insert_sorted.
Qed.

(** Filtering the sorted rows is sorting the filtered rows: the sorter
    keeps rows that tie in the order in which it met them. *)
Lemma filter_sorter_insert (p : Row -> bool) (r : Row) (l : list Row) :
  StronglySorted newest_first l ->
  filter p (sorter_insert r l)
  = if p r then sorter_insert r (filter p l) else filter p l.
Proof.
  induction 1 as [|x l S IH F]; simpl.
  - now destruct (p r).
  - destruct (Sqlite.text_ltb (created_at r) (created_at x)) eqn:E; simpl.
    + rewrite IH; destruct (p x), (p r); simpl; try reflexivity.
      now rewrite E.
    + destruct (p r), (p x); simpl; try reflexivity.
      * now rewrite E.
      * symmetry; apply sorter_insert_front.
        apply Forall_forall; intros y Hy.
        apply filter_In in Hy; destruct Hy as [Hy _].
        rewrite Forall_forall in F.
        eapply newest_first_trans; [exact E|auto].
Qed.

Lemma filter_order_by (p : Row -> bool) (rows : list Row) :
  filter p (order_by_created_at_desc rows)
  = order_by_created_at_desc (filter p rows).
Proof.
  induction rows as [|r rows IH]; simpl; [reflexivity|].
  rewrite filter_sorter_insert by apply order_by_sorted.
  rewrite IH; now destruct (p r).
Qed.

(** Rows that tie stay in scan order. *)
Lemma sorter_insert_ties (r : Row) (l : list Row) :
  StronglySorted newest_then_lowest_id l ->
  Forall (fun y => (id r < id y)%Z) l ->
  StronglySorted newest_then_lowest_id (sorter_insert r l).
Proof.
  induction 1 as [|x l S IH F]; simpl; intros I.
  - repeat constructor.
  - inversion_clear I as [|? ? Ix Il].
    destruct (Sqlite.text_ltb (created_at r) (created_at x)) eqn:E.
    + constructor; [now apply IH|].
      rewrite sorter_insert_perm; constructor; [|exact F].
      left; unfold created_before, Sqlite.text_ltb in *.
      destruct (Sqlite.text_compare (created_at r) (created_at x));
        congruence.
    + assert (Hx : newest_then_lowest_id r x).
      { apply newest_first_cases in E; destruct E as [E|E];
          [now left | now right]. }
      constructor; [now constructor|].
      constructor; [exact Hx|].
      rewrite Forall_forall in F, Il |- *; intros y Hy.
      specialize (F y Hy); specialize (Il y Hy).
      unfold newest_then_lowest_id, created_before in *.
      destruct Hx as [Hx|[Hx _]], F as [F|[F _]].
      * left; eapply text_lt_trans; eauto.
      * left; congruence.
      * left; congruence.
      * right; split; [congruence|exact Il].
Qed.

Lemma order_by_ties (rows : list Row) :
  StronglySorted (fun a b => (id a < id b)%Z) rows ->
  StronglySorted newest_then_lowest_id (order_by_created_at_desc rows).
Proof.
  induction 1 as [|r rows S IH F]; simpl; [constructor|].
  apply sorter_insert_ties; [exact IH|].
  now rewrite order_by_perm.
Qed.

End SorterFacts.

(** * The note store *)

Section StoreFacts.

Import NoteDB.

Lemma max_rowid_ge (rows : list Row) (r : Row) :
  In r rows -> (id r <= max_rowid rows)%Z.
Proof.
  induction rows as [|x rows IH]; simpl; [tauto|].
  intros [->|H]; [lia|]. specialize (IH H); lia.
Qed.

Lemma next_rowid_fresh (db : NoteDB.t) (r : Row) :
  In r (notes db) -> (id r < next_rowid db)%Z.
Proof.
  intros H; apply max_rowid_ge in H; unfold next_rowid; lia.
Qed.

Lemma find_app_miss (f : Row -> bool) (l l' : list Row) :
  (forall r, In r l -> f r = false) -> find f (l ++ l') = find f l'.
Proof.
  induction l as [|x l IH]; simpl; intros H; [reflexivity|].
  rewrite (H x) by now left. apply IH; auto.
Qed.

Lemma find_id (rows : list Row) (n : Z) (r : Row) :
  find (fun x => (id x =? n)%Z) rows = Some r -> id r = n.
Proof.
  intros H; apply find_some in H; destruct H as [_ H].
  now apply Z.eqb_eq.
Qed.

Lemma filter_all (f : Row -> bool) (rows : list Row) :
  find f rows = None -> filter (fun r => negb (f r)) rows = rows.
Proof.
  induction rows as [|x rows IH]; simpl; [reflexivity|].
  destruct (f x); [discriminate|]; simpl.
  intros H; f_equal; auto.
Qed.

Lemma get_added_note (db : NoteDB.t) (ts ti co ta : text) :
  get_note_by_id (fst (add_note db ts ti co ta)) (next_rowid db)
  = Some (mkRow (next_rowid db) ti co ta ts).
Proof.
  unfold get_note_by_id; simpl.
  rewrite find_app_miss.
  - simpl; now rewrite Z.eqb_refl.
  - intros r Hr; apply next_rowid_fresh in Hr.
    apply Z.eqb_neq; lia.
Qed.

Lemma get_updated_note (db : NoteDB.t) (n : Z) (ti co ta : text) (r : Row) :
  get_note_by_id db n = Some r ->
  get_note_by_id (update_note db n ti co ta) n
  = Some (mkRow n ti co ta (created_at r)).
Proof.
  unfold get_note_by_id, update_note; simpl.
  induction (notes db) as [|x l IH]; simpl; [discriminate|].
  destruct (id x =? n)%Z eqn:E; simpl; rewrite E; [|exact IH].
  intros H; injection H as <-.
  apply Z.eqb_eq in E; now rewrite E.
Qed.

Lemma rowid_order_add (db : NoteDB.t) ts ti co ta :
  Spec.rowid_order db -> Spec.rowid_order (fst (add_note db ts ti co ta)).
Proof.
  unfold Spec.rowid_order; simpl.
  pose proof (next_rowid_fresh db) as F; revert F.
  generalize (next_rowid db); intros n F.
  induction 1 as [|x l S IH Hx]; simpl.
  - repeat constructor.
  - constructor.
    + apply IH; intros r Hr; apply F; now right.
    + apply Forall_app; split; [exact Hx|].
      constructor; [|constructor]; simpl.
      apply (F x); now left.
Qed.

Lemma rowid_order_update (db : NoteDB.t) n ti co ta :
  Spec.rowid_order db -> Spec.rowid_order (update_note db n ti co ta).
Proof.
  unfold Spec.rowid_order; simpl.
  induction 1 as [|x l S IH Hx]; simpl; constructor; [exact IH|].
  apply Forall_map.
  assert (E : forall r,
             id (if (id r =? n)%Z
                 then mkRow (id r) ti co ta (created_at r) else r) = id r)
    by (intros r; now destruct (id r =? n)%Z).
  rewrite E; eapply Forall_impl; [|exact Hx].
  intros r Hr; now rewrite E.
Qed.

Lemma rowid_order_delete (db : NoteDB.t) n :
  Spec.rowid_order db -> Spec.rowid_order (delete_note db n).
Proof.
  unfold Spec.rowid_order; simpl.
  induction 1 as [|x l S IH Hx]; simpl; [constructor|].
  destruct (negb (id x =? n)%Z); [|exact IH].
  constructor; [exact IH|].
  apply Forall_forall; intros r Hr.
  apply filter_In in Hr; destruct Hr as [Hr _].
  rewrite Forall_forall in Hx; auto.
Qed.

(** Every state the program reaches from a new file keeps the rows in
    rowid order. *)
Lemma reachable_rowid_order (db : NoteDB.t) :
  Spec.reachable db -> Spec.rowid_order db.
Proof.
  induction 1.
  - constructor.
  - now apply rowid_order_add.
  - now apply rowid_order_update.
  - now apply rowid_order_delete.
Qed.

End StoreFacts.

Section StoreClaims.

Import NoteDB.

(** C7. [add_note] followed by [get_note_by_id] on the id it returned
    retrieves a row with that id, the title, content and tags that were
    passed in, and the clock reading as its creation time. *)
Theorem add_note_then_get_note_by_id
    (db : NoteDB.t) (ts title content tags : text) :
  get_note_by_id (fst (add_note db ts title content tags))
                 (snd (add_note db ts title content tags))
  = Some (mkRow (snd (add_note db ts title content tags))
                title content tags ts).
Proof. exact (get_added_note db ts title content tags). Qed.

(** C8. After [delete_note db n], [get_note_by_id] finds no row with id
    [n]; when no row had id [n] to begin with, [delete_note] (which always
    runs to completion) hands back the very same store; and deleting a
    second time changes nothing. *)
Theorem delete_note_then_get_note_by_id (db : NoteDB.t) (n : Z) :
  get_note_by_id (delete_note db n) n = None
  /\ (get_note_by_id db n = None -> delete_note db n = db)
  /\ delete_note (delete_note db n) n = delete_note db n.
Proof.
  assert (G : forall d, get_note_by_id (delete_note d n) n = None).
  { intros d; unfold get_note_by_id, delete_note; simpl.
    destruct (find _ _) as [r|] eqn:E; [|reflexivity].
    apply find_some in E; destruct E as [Hin Hid].
    apply filter_In in Hin; destruct Hin as [_ Hn].
    now rewrite Hid in Hn. }
  assert (N : forall d, get_note_by_id d n = None -> delete_note d n = d).
  { intros [rows s] H; unfold get_note_by_id, delete_note in *; simpl in *.
    f_equal; now apply filter_all. }
  split; [apply G|]. split; [apply N|].
  apply N, G.
Qed.

Lemma delete_note_then_get_note_by_id_witness :
  get_note_by_id Samples.db3 7 = None
  /\ delete_note Samples.db3 7 = Samples.db3.
Proof.
  split; [reflexivity|].
  apply (proj1 (proj2 (delete_note_then_get_note_by_id Samples.db3 7))).
  reflexivity.
Defined.

(** C9. When a row has id [n], [update_note db n title content tags]
    leaves that row with the new title, content and tags and with the
    creation time it had; every row with another id is read back as
    before, the rows with another id are the same rows in the same order,
    every row keeps its id and its creation time, and the rowid counter is
    untouched. *)
Theorem update_note_frame
    (db : NoteDB.t) (n : Z) (title content tags : text) (r : Row) :
  get_note_by_id db n = Some r ->
  let db' := update_note db n title content tags in
  get_note_by_id db' n = Some (mkRow n title content tags (created_at r))
  /\ (forall m, m <> n -> get_note_by_id db' m = get_note_by_id db m)
  /\ filter (fun x => negb (id x =? n)%Z) (notes db')
     = filter (fun x => negb (id x =? n)%Z) (notes db)
  /\ map id (notes db') = map id (notes db)
  /\ map created_at (notes db') = map created_at (notes db)
  /\ seq db' = seq db.
Proof.
  intros H; split; [now apply get_updated_note|].
  unfold get_note_by_id, update_note; simpl.
  repeat split.
  - intros m Hm; clear H.
    induction (notes db) as [|x l IH]; simpl; [reflexivity|].
    destruct (id x =? n)%Z eqn:E; simpl.
    + apply Z.eqb_eq in E.
      assert (E' : (id x =? m)%Z = false) by (apply Z.eqb_neq; lia).
      now rewrite E'.
    + now rewrite IH.
  - clear H; induction (notes db) as [|x l IH]; simpl; [reflexivity|].
    destruct (id x =? n)%Z eqn:E; simpl; rewrite E; simpl;
      now rewrite IH.
  - clear H; induction (notes db) as [|x l IH]; simpl; [reflexivity|].
    rewrite IH; now destruct (id x =? n)%Z.
  - clear H; induction (notes db) as [|x l IH]; simpl; [reflexivity|].
    rewrite IH; now destruct (id x =? n)%Z.
Qed.

Lemma update_note_frame_witness :
  get_note_by_id
    (update_note Samples.db3 2 (str "2nd") (str "bread") (str "food")) 2
  = Some (mkRow 2 (str "2nd") (str "bread") (str "food") Samples.noon)
  /\ get_note_by_id
       (update_note Samples.db3 2 (str "2nd") (str "bread") (str "food")) 3
     = get_note_by_id Samples.db3 3.
Proof.
  destruct (update_note_frame Samples.db3 2 (str "2nd") (str "bread")
              (str "food")
              (mkRow 2 (str "second") (str "Bread and jam") (str "shop")
                 Samples.noon) eq_refl)
    as (H1 & H2 & _).
  split; [exact H1|].
  apply H2; discriminate.
Defined.

(** C4, as the code has it. [get_all_notes] returns all rows of the
    table, none twice, with no row in front of one created later; in a
    table held in rowid order, rows with the same creation time come in
    ascending order of id (lowest id first). *)
Theorem get_all_notes_order (db : NoteDB.t) :
  Permutation (get_all_notes db) (notes db)
  /\ StronglySorted Spec.newest_first (get_all_notes db)
  /\ (Spec.rowid_order db ->
      StronglySorted Spec.newest_then_lowest_id (get_all_notes db)).
Proof.
  unfold get_all_notes; repeat split.
  - apply order_by_perm.
  - apply order_by_sorted.
  - apply order_by_ties.
Qed.

Lemma get_all_notes_order_witness :
  Spec.rowid_order Samples.db3
  /\ StronglySorted Spec.newest_then_lowest_id (get_all_notes Samples.db3).
Proof.
  assert (R : Spec.rowid_order Samples.db3).
  { unfold Spec.rowid_order; simpl.
    repeat constructor; simpl; unfold next_rowid; simpl; lia. }
  split; [exact R|].
  apply (proj2 (proj2 (get_all_notes_order Samples.db3)) R).
Defined.

(** C4 as stated fails: of two notes saved within the same second, the
    one with the lower id is listed first. *)
Lemma get_all_notes_ties_counterexample :
  map id (get_all_notes Samples.db2) = [1; 2]%Z
  /\ map created_at (get_all_notes Samples.db2)
     = [Samples.noon; Samples.noon]
  /\ ~ StronglySorted Spec.newest_then_highest_id
         (get_all_notes Samples.db2).
Proof.
  split; [reflexivity|]. split; [reflexivity|].
  intros S; inversion_clear S as [|? ? _ F].
  inversion_clear F as [|? ? [H|[_ H]] _].
  - vm_compute in H; discriminate.
  - vm_compute in H; discriminate.
Qed.

(** C2, as the code has it. For a keyword with no [%], no [_] and no NUL
    in it, [search_notes] returns exactly the rows of [get_all_notes] in
    which the keyword occurs as a substring, up to the case of the
    letters A-Z, of the title, the content or the tags (each read up to
    its first NUL, if it has one), in the order [get_all_notes] has
    them. *)
Theorem search_notes_plain_keyword (db : NoteDB.t) (k : text) :
  Spec.plain k = true ->
  search_notes db k = filter (Spec.mentions k) (get_all_notes db).
Proof.
  intros H; unfold search_notes, get_all_notes.
  rewrite filter_order_by; f_equal.
  apply filter_ext; intros r; unfold Spec.mentions.
  now rewrite !(like_plain _ k H).
Qed.

Lemma search_notes_plain_keyword_witness :
  search_notes Samples.db3 (str "BR")
  = filter (Spec.mentions (str "BR")) (get_all_notes Samples.db3)
  /\ map id (search_notes Samples.db3 (str "BR")) = [2]%Z.
Proof.
  split; [|reflexivity].
  apply (search_notes_plain_keyword Samples.db3 (str "BR")).
  reflexivity.
Defined.

(** C2 as stated fails: the keyword [_] finds a note although the
    character occurs in none of its fields, with or without regard to
    case. *)
Lemma search_notes_wildcard_counterexample :
  map id (search_notes Samples.db1 (str "_")) = [1]%Z
  /\ forall r, In r (search_notes Samples.db1 (str "_")) ->
       Spec.contains_ci (str "_") (title r) = false
       /\ Spec.contains_ci (str "_") (content r) = false
       /\ Spec.contains_ci (str "_") (tags r) = false.
Proof.
  split; [reflexivity|].
  intros r [<-|[]]; repeat split; reflexivity.
Qed.

End StoreClaims.

(** * The application *)

Section AppFacts.

Import Py VoiceNoteApp.

Lemma lstrip_app_cons (w x : text) c r :
  lstrip w = c :: r -> lstrip (w ++ x) = c :: r ++ x.
Proof.
  induction w as [|d w IH]; simpl; [discriminate|].
  destruct (isspace d); [exact IH|].
  intros H; injection H as -> ->; reflexivity.
Qed.

(** The newline Tk keeps at the end of the editor goes away with the
    rest of the surrounding whitespace. *)
Lemma strip_get_all (w : Tk.TextWidget) : strip (Tk.get_all w) = strip w.
Proof.
  destruct (lstrip w) as [|c r] eqn:E.
  - assert (B : Spec.blank w = true) by now apply lstrip_nil_blank.
    rewrite (strip_blank w B); apply strip_blank.
    now rewrite blank_get_all.
  - unfold Tk.get_all.
    rewrite (strip_cons w c r E).
    rewrite (strip_cons _ c (r ++ [10%N]) (lstrip_app_cons w [10%N] c r E)).
    now rewrite rev_app_distr.
Qed.

Lemma append_text_content (a : VoiceNoteApp.t) (t : text) :
  content_text (_append_text a t)
  = Spec.append_fragment (content_text a) t.
Proof.
  unfold _append_text, Spec.append_fragment.
  rewrite truthy_strip, blank_get_all.
  now destruct (Spec.blank (content_text a)).
Qed.

Lemma append_text_rest (a : VoiceNoteApp.t) (t : text) :
  after_queue (_append_text a t) = after_queue a
  /\ listening (_append_text a t) = listening a
  /\ db (_append_text a t) = db a.
Proof.
  unfold _append_text.
  now destruct (truthy (strip (Tk.get_all (content_text a)))).
Qed.

(** What [_callback] queues is what the phrase contributes. *)
Lemma callback_queue (a : VoiceNoteApp.t) (r : recognition) :
  after_queue (_callback a r) = after_queue a ++ Spec.fragments_of r
  /\ content_text (_callback a r) = content_text a
  /\ listening (_callback a r) = listening a
  /\ db (_callback a r) = db a.
Proof.
  unfold _callback; destruct r as [[|c t]| |e]; simpl;
    now rewrite ?app_nil_r.
Qed.

Lemma step_settled (a : VoiceNoteApp.t) (e : event) :
  Spec.settled (step a e)
  = fold_left Spec.append_fragment (Spec.fragments [e]) (Spec.settled a)
  /\ listening (step a e) = listening a
  /\ db (step a e) = db a.
Proof.
  unfold Spec.settled, Spec.fragments; destruct e as [r|]; simpl.
  - destruct (callback_queue a r) as (-> & -> & -> & ->).
    now rewrite app_nil_r, fold_left_app.
  - unfold run_after; destruct (after_queue a) as [|t q] eqn:Q.
    + now rewrite Q.
    + destruct (append_text_rest (set_after_queue a q) t) as (-> & -> & ->).
      now rewrite append_text_content.
Qed.

Lemma run_settled (es : list event) (a : VoiceNoteApp.t) :
  Spec.settled (run es a)
  = fold_left Spec.append_fragment (Spec.fragments es) (Spec.settled a)
  /\ listening (run es a) = listening a
  /\ db (run es a) = db a.
Proof.
  revert a; induction es as [|e es IH]; intros a; [now simpl|].
  change (run (e :: es) a) with (run es (step a e)).
  destruct (IH (step a e)) as (-> & -> & ->).
  destruct (step_settled a e) as (-> & -> & ->).
  assert (E : Spec.fragments (e :: es)
              = Spec.fragments [e] ++ Spec.fragments es)
    by (unfold Spec.fragments; simpl; now rewrite app_nil_r).
  now rewrite E, fold_left_app.
Qed.

Lemma drain_from (ticks : list text) (a : VoiceNoteApp.t) :
  List.length ticks = List.length (after_queue a) ->
  content_text (fold_left (fun x _ => run_after x) ticks a) = Spec.settled a
  /\ after_queue (fold_left (fun x _ => run_after x) ticks a) = []
  /\ listening (fold_left (fun x _ => run_after x) ticks a) = listening a
  /\ db (fold_left (fun x _ => run_after x) ticks a) = db a.
Proof.
  revert a; induction ticks as [|x ticks IH]; intros a L; simpl in *.
  - unfold Spec.settled; destruct (after_queue a); [now simpl|discriminate].
  - destruct (after_queue a) as [|t q] eqn:Q; [discriminate|].
    assert (E : run_after a = _append_text (set_after_queue a q) t)
      by (unfold run_after; now rewrite Q).
    destruct (append_text_rest (set_after_queue a q) t) as (Hq & Hl & Hd).
    rewrite E.
    destruct (IH (_append_text (set_after_queue a q) t))
      as (H1 & H2 & H3 & H4).
    + rewrite Hq; simpl in *; lia.
    + rewrite H1, H2, H3, H4, Hl, Hd.
      unfold Spec.settled; rewrite Hq, Q, append_text_content.
      now simpl.
Qed.

Lemma drain_settled (a : VoiceNoteApp.t) :
  content_text (drain a) = Spec.settled a
  /\ after_queue (drain a) = []
  /\ listening (drain a) = listening a
  /\ db (drain a) = db a.
Proof. now apply drain_from. Qed.

End AppFacts.

Section AppClaims.

Import Py NoteDB VoiceNoteApp.

(** C1, as the code has it. Whatever way the phrases reported by the
    listener thread and the turns of the main loop interleave, once the
    queue has been worked off the editor holds its earlier text followed
    by the fragments of the phrases, in the order of the phrases: the
    transcript of a phrase that was recognized, nothing for a phrase in
    which nothing was recognized, and the text [[error: message]] for a
    phrase whose recognition call failed with any other exception. No
    call stays queued, the recording flag is as it was (the session goes
    on), and the store is untouched. *)
Theorem session_appends_fragments_in_order
    (es : list event) (a : VoiceNoteApp.t) :
  content_text (drain (run es a))
  = fold_left Spec.append_fragment
      (after_queue a ++ Spec.fragments es) (content_text a)
  /\ after_queue (drain (run es a)) = []
  /\ listening (drain (run es a)) = listening a
  /\ db (drain (run es a)) = db a.
Proof.
  destruct (drain_settled (run es a)) as (-> & -> & -> & ->).
  destruct (run_settled es a) as (-> & -> & ->).
  unfold Spec.settled; now rewrite fold_left_app.
Qed.

(** C1 as stated fails: with three phrases of which the second fails in
    the recognition call, the editor ends up with a fragment made from the
    failure between the first and the third transcript, and differs from
    what the first and third phrase alone leave in it. *)
Lemma failed_phrase_counterexample :
  content_text (drain (run Samples.three_phrases Samples.app0))
  = str "one [error: timed out] three"
  /\ content_text (drain (run Samples.two_phrases Samples.app0))
     = str "one three"
  /\ content_text (drain (run Samples.three_phrases Samples.app0))
     <> content_text (drain (run Samples.two_phrases Samples.app0)).
Proof.
  split; [reflexivity|]. split; [reflexivity|].
  vm_compute; discriminate.
Qed.

(** C6, as the code has it. [_append_text] leaves in the editor the old
    text, then a single space when the old text held anything else than
    whitespace, then the fragment; on an empty editor that is the fragment
    alone. *)
Theorem append_text_buffer (a : VoiceNoteApp.t) (t : text) :
  content_text (_append_text a t)
  = (if Spec.blank (content_text a)
     then content_text a ++ t
     else content_text a ++ str " " ++ t)
  /\ content_text (_append_text (set_content_text a []) t) = t.
Proof.
  split.
  - apply append_text_content.
  - now rewrite append_text_content.
Qed.

(** C6 as stated fails: an editor that holds one space is not empty, yet
    no space is put in front of the fragment. *)
Lemma append_text_blank_counterexample :
  content_text (Samples.typed (str " ")) <> []
  /\ content_text (_append_text (Samples.typed (str " ")) (str "x"))
     = str " x"
  /\ content_text (_append_text (Samples.typed (str " ")) (str "x"))
     <> content_text (Samples.typed (str " ")) ++ str " " ++ str "x".
Proof.
  split; [discriminate|]. split; [reflexivity|].
  vm_compute; discriminate.
Qed.

Lemma filter_true (rows : list Row) : filter (fun _ => true) rows = rows.
Proof. induction rows; simpl; congruence. Qed.

(** C3. [NoteDB.search_notes] with the empty keyword returns the very
    list [get_all_notes] returns; and the application's search, when the
    search field holds nothing but whitespace, fills the list box exactly
    as listing all notes does. *)
Theorem search_empty_keyword :
  (forall db : NoteDB.t, NoteDB.search_notes db [] = get_all_notes db)
  /\ (forall a : VoiceNoteApp.t,
        Spec.blank (search_entry a) = true ->
        VoiceNoteApp.search_notes a = load_notes a None
        /\ notes_map (VoiceNoteApp.search_notes a)
           = map id (get_all_notes (db a))).
Proof.
  split.
  - intros d; unfold NoteDB.search_notes, get_all_notes; f_equal.
    rewrite <- (filter_true (notes d)) at 2.
    apply filter_ext; intros r; simpl.
    now rewrite like_any.
  - intros a H; unfold VoiceNoteApp.search_notes.
    now rewrite truthy_strip, H.
Qed.

Lemma search_empty_keyword_witness :
  Spec.blank (search_entry Samples.searching) = true
  /\ notes_map (VoiceNoteApp.search_notes Samples.searching)
     = [3; 1; 2]%Z.
Proof.
  split; [reflexivity|].
  exact (proj2 (proj2 search_empty_keyword Samples.searching eq_refl)).
Defined.

(** C10. [save_note] on an editor that holds nothing but whitespace
    returns without touching the store: the database, the id of the
    current note and the list box are as before; all it does is show a
    message. *)
Theorem save_note_blank_content (ts : text) (a : VoiceNoteApp.t) :
  Spec.blank (content_text a) = true ->
  exists a',
    save_note ts a = Done a'
    /\ db a' = db a
    /\ current_note_id a' = current_note_id a
    /\ notes_map a' = notes_map a
    /\ content_text a' = content_text a
    /\ dialogs a' = dialogs a ++ [(str "Save", str "Note content is empty")].
Proof.
  intros H; eexists; unfold save_note.
  rewrite truthy_strip, blank_get_all, H; simpl.
  repeat split.
Qed.

Lemma save_note_blank_content_witness :
  exists a',
    save_note Samples.noon
      (set_content_text (VoiceNoteApp.init Samples.db3 true) (str "  "))
    = Done a'
    /\ db a' = Samples.db3.
Proof.
  destruct (save_note_blank_content Samples.noon
              (set_content_text (VoiceNoteApp.init Samples.db3 true)
                 (str "  ")) eq_refl)
    as (a' & H & Hdb & _).
  exists a'; split; [exact H|exact Hdb].
Defined.

(** C5, as the code has it. When the title field holds nothing but
    whitespace and the editor holds something else than whitespace,
    [save_note] stores as content the text of the editor without its
    leading and trailing whitespace, and as title the first line of that
    content cut to at most 60 characters: in a new note under the next
    rowid when no note is current, in the current note, whose creation
    time stays, otherwise. *)
Theorem save_note_default_title (ts : text) (a : VoiceNoteApp.t) :
  Spec.blank (title_entry a) = true ->
  Spec.blank (content_text a) = false ->
  let content := strip (content_text a) in
  let title := firstn 60 (Spec.first_line content) in
  let tags := strip (tags_entry a) in
  exists a',
    save_note ts a = Done a'
    /\ match current_note_id a with
       | None =>
           current_note_id a' = Some (next_rowid (db a))
           /\ get_note_by_id (db a') (next_rowid (db a))
              = Some (mkRow (next_rowid (db a)) title content tags ts)
       | Some n =>
           current_note_id a' = Some n
           /\ forall r, get_note_by_id (db a) n = Some r ->
                get_note_by_id (db a') n
                = Some (mkRow n title content tags (created_at r))
       end.
Proof.
  intros Ht Hc content title tags.
  assert (Hne : content <> []).
  { intros E; pose proof (truthy_strip (content_text a)) as T.
    fold content in T; rewrite E, Hc in T; discriminate. }
  unfold save_note.
  rewrite strip_get_all; fold content.
  rewrite (truthy_strip (title_entry a)), Ht.
  unfold content at 2 3; rewrite strip_idem; fold content.
  destruct content as [|c0 rest] eqn:Ec; [congruence|].
  cbn [truthy negb].
  rewrite (item0_splitlines (c0 :: rest)) by discriminate.
  unfold slice_to; fold title.
  destruct (current_note_id a) as [n|] eqn:En.
  - eexists; split; [reflexivity|]; simpl.
    split; [exact En|].
    intros r Hr; now apply get_updated_note.
  - eexists; split; [reflexivity|]; simpl.
    split; [reflexivity|].
    apply get_added_note.
Qed.

(** Two phrases, "hello" and "world", then a save with an empty title. *)
Lemma save_note_default_title_witness :
  exists a',
    save_note Samples.noon
      (drain (run [Phrase (Recognized (str "hello"));
                   Phrase (Recognized (str "world"))] Samples.app0))
    = Done a'
    /\ get_note_by_id (db a') 1
       = Some (mkRow 1 (str "hello world") (str "hello world") []
                 Samples.noon).
Proof.
  destruct (save_note_default_title Samples.noon
              (drain (run [Phrase (Recognized (str "hello"));
                           Phrase (Recognized (str "world"))] Samples.app0))
              eq_refl eq_refl)
    as (a' & H & _ & G).
  exists a'; split; [exact H|exact G].
Defined.

(** C5 as stated fails: the stored content is not the text of the editor
    when that text starts with whitespace, and the stored title is not the
    first line of the text of the editor. *)
Lemma save_note_strips_counterexample :
  exists a' r,
    save_note Samples.noon (Samples.typed (str " hi")) = Done a'
    /\ get_note_by_id (db a') 1 = Some r
    /\ content r = str "hi"
    /\ title r = str "hi"
    /\ content r <> content_text (Samples.typed (str " hi"))
    /\ title r
       <> firstn 60 (Spec.first_line (content_text (Samples.typed (str " hi")))).
Proof.
  eexists; eexists.
  split; [reflexivity|]. split; [reflexivity|].
  split; [reflexivity|]. split; [reflexivity|].
  split; vm_compute; discriminate.
Qed.

End AppClaims.

(** * More about the note store *)

Section StoreMore.

Import NoteDB.

Lemma find_app_hit (f : Row -> bool) (l l' : list Row) (r : Row) :
  find f l = Some r -> find f (l ++ l') = Some r.
Proof.
  induction l as [|x l IH]; simpl; [discriminate|].
  destruct (f x); auto.
Qed.

Lemma max_rowid_le (rows : list Row) (s : Z) :
  (0 <= s)%Z -> Forall (fun r => (id r <= s)%Z) rows ->
  (max_rowid rows <= s)%Z.
Proof.
  intros Hs; induction 1 as [|x l Hx _ IH]; simpl; lia.
Qed.

(** In a reachable state the counter is at or above every rowid, and
    rowids start at 1. *)
Lemma reachable_seq (db : NoteDB.t) :
  Spec.reachable db ->
  (0 <= seq db)%Z
  /\ Forall (fun r => (1 <= id r <= seq db)%Z) (notes db).
Proof.
  induction 1 as [|db ts ti co ta R [Hs IH]|db n ti co ta R [Hs IH]
                  |db n R [Hs IH]]; simpl.
  - split; [lia|constructor].
  - assert (M : (max_rowid (notes db) <= seq db)%Z).
    { apply max_rowid_le; [exact Hs|].
      eapply Forall_impl; [|exact IH]; simpl; intros; lia. }
    unfold next_rowid; split; [lia|].
    apply Forall_app; split.
    + eapply Forall_impl; [|exact IH]; simpl; intros; lia.
    + repeat constructor; simpl; lia.
  - split; [exact Hs|].
    apply Forall_map; eapply Forall_impl; [|exact IH].
    intros r Hr; now destruct (id r =? n)%Z.
  - split; [exact Hs|].
    apply Forall_forall; intros r Hr.
    apply filter_In in Hr; destruct Hr as [Hr _].
    rewrite Forall_forall in IH; auto.
Qed.

Lemma rowid_order_find (rows : list Row) (r : Row) :
  StronglySorted (fun a b => (id a < id b)%Z) rows ->
  In r rows ->
  find (fun x => (id x =? id r)%Z) rows = Some r.
Proof.
  induction 1 as [|x l S IH F]; simpl; [tauto|].
  intros [->|Hin].
  - now rewrite Z.eqb_refl.
  - rewrite Forall_forall in F; specialize (F r Hin).
    assert (E : (id x =? id r)%Z = false) by (apply Z.eqb_neq; lia).
    rewrite E; auto.
Qed.

Lemma rowid_order_nodup (rows : list Row) :
  StronglySorted (fun a b => (id a < id b)%Z) rows ->
  NoDup (map id rows).
Proof.
  induction 1 as [|x l S IH F]; simpl; constructor; [|exact IH].
  intros Hin; apply in_map_iff in Hin; destruct Hin as (y & E & Hy).
  rewrite Forall_forall in F; specialize (F y Hy); lia.
Qed.

Lemma reachable_db3 : Spec.reachable Samples.db3.
Proof.
  unfold Samples.db3, Samples.db2, Samples.db1.
  repeat apply Spec.reach_add; apply Spec.reach_empty.
Qed.

(** X1. [add_note] leaves every note that could be read before readable
    under its id, unchanged, and the id it returns is none of theirs. *)
Theorem add_note_keeps_notes
    (db : NoteDB.t) (ts ti co ta : text) (m : Z) (r : Row) :
  get_note_by_id db m = Some r ->
  get_note_by_id (fst (add_note db ts ti co ta)) m = Some r
  /\ m <> snd (add_note db ts ti co ta).
Proof.
  unfold get_note_by_id; simpl; intros H; split.
  - now apply find_app_hit.
  - pose proof (find_id _ _ _ H) as E.
    apply find_some in H; destruct H as [Hin _].
    apply next_rowid_fresh in Hin; lia.
Qed.

Lemma add_note_keeps_notes_witness :
  get_note_by_id
    (fst (add_note Samples.db2 Samples.noon (str "t") (str "c") [])) 2
  = get_note_by_id Samples.db2 2
  /\ 2%Z <> snd (add_note Samples.db2 Samples.noon (str "t") (str "c") []).
Proof.
  destruct (add_note_keeps_notes Samples.db2 Samples.noon (str "t") (str "c")
              [] 2
              (mkRow 2 (str "second") (str "Bread and jam") (str "shop")
                 Samples.noon) eq_refl) as [H1 H2].
  split; [rewrite H1; reflexivity|exact H2].
Defined.

(** X2. Rowids are not given out twice: in a state the program has reached,
    the id [add_note] returns after any deletion is one more than the
    counter, whatever was deleted, and so above the id of every note the
    table held before the deletion. *)
Theorem rowid_never_reused
    (db : NoteDB.t) (n : Z) (ts ti co ta : text) :
  Spec.reachable db ->
  snd (add_note (delete_note db n) ts ti co ta) = (seq db + 1)%Z
  /\ forall r, In r (notes db) ->
       (id r < snd (add_note (delete_note db n) ts ti co ta))%Z.
Proof.
  intros R; destruct (reachable_seq db R) as [Hs F].
  assert (M : (max_rowid (notes (delete_note db n)) <= seq db)%Z).
  { apply max_rowid_le; [exact Hs|]; simpl.
    apply Forall_forall; intros r Hr.
    apply filter_In in Hr; destruct Hr as [Hr _].
    rewrite Forall_forall in F; specialize (F r Hr); lia. }
  assert (E : snd (add_note (delete_note db n) ts ti co ta)
              = (seq db + 1)%Z).
  { simpl; unfold next_rowid; simpl seq; lia. }
  split; [exact E|].
  intros r Hr; rewrite E.
  rewrite Forall_forall in F; specialize (F r Hr); lia.
Qed.

Lemma rowid_never_reused_witness :
  snd (add_note (delete_note Samples.db3 3) Samples.noon [] [] []) = 4%Z.
Proof.
  apply (proj1 (rowid_never_reused Samples.db3 3 Samples.noon [] [] []
                  reachable_db3)).
Defined.

(** X3. [delete_note db n] leaves the notes with other ids as they were:
    each is read back unchanged; no listed note has id [n] any more; and
    the rowid counter stays. *)
Theorem delete_note_frame (db : NoteDB.t) (n m : Z) :
  m <> n ->
  get_note_by_id (delete_note db n) m = get_note_by_id db m
  /\ ~ In n (map id (get_all_notes (delete_note db n)))
  /\ seq (delete_note db n) = seq db.
Proof.
  intros Hm; unfold get_note_by_id, get_all_notes, delete_note; simpl.
  repeat split.
  - induction (notes db) as [|x l IH]; simpl; [reflexivity|].
    destruct (id x =? n)%Z eqn:E; simpl.
    + apply Z.eqb_eq in E.
      assert (E' : (id x =? m)%Z = false) by (apply Z.eqb_neq; lia).
      now rewrite E'.
    + now rewrite IH.
  - intros Hin; apply in_map_iff in Hin; destruct Hin as (r & E & Hr).
    eapply Permutation_in in Hr; [|apply order_by_perm].
    apply filter_In in Hr; destruct Hr as [_ Hr].
    apply negb_true_iff, Z.eqb_neq in Hr; contradiction.
Qed.

Lemma delete_note_frame_witness :
  get_note_by_id (delete_note Samples.db3 1) 2 = get_note_by_id Samples.db3 2
  /\ map id (get_all_notes (delete_note Samples.db3 1)) = [3; 2]%Z.
Proof.
  split; [|reflexivity].
  apply (proj1 (delete_note_frame Samples.db3 1 2 ltac:(discriminate))).
Defined.

(** X4. [update_note] with an id that no row has changes nothing and
    reports nothing: the store that comes back is the store that went
    in. *)
Theorem update_note_missing_id
    (db : NoteDB.t) (n : Z) (ti co ta : text) :
  get_note_by_id db n = None -> update_note db n ti co ta = db.
Proof.
  destruct db as [rows s]; unfold get_note_by_id, update_note; simpl.
  intros H; f_equal.
  induction rows as [|x l IH]; simpl in *; [reflexivity|].
  destruct (id x =? n)%Z; [discriminate|].
  f_equal; auto.
Qed.

Lemma update_note_missing_id_witness :
  update_note Samples.db3 9 (str "t") (str "c") [] = Samples.db3.
Proof.
  apply (update_note_missing_id Samples.db3 9 (str "t") (str "c") []).
  reflexivity.
Defined.

Lemma update_row_id (n : Z) (ti co ta : text) (r : Row) :
  id (if (id r =? n)%Z then mkRow (id r) ti co ta (created_at r) else r)
  = id r.
Proof. now destruct (id r =? n)%Z. Qed.

(** X5. Of two updates of the same note the second one wins, and updates
    of two different notes can be made in either order. *)
Theorem update_note_compose
    (db : NoteDB.t) (n m : Z) (ti co ta ti' co' ta' : text) :
  update_note (update_note db n ti co ta) n ti' co' ta'
  = update_note db n ti' co' ta'
  /\ (n <> m ->
      update_note (update_note db n ti co ta) m ti' co' ta'
      = update_note (update_note db m ti' co' ta') n ti co ta).
Proof.
  unfold update_note; simpl; split; [|intros Hnm]; f_equal;
    rewrite !map_map; apply map_ext; intros r.
  - destruct (id r =? n)%Z eqn:E; simpl; now rewrite E.
  - destruct (id r =? n)%Z eqn:E, (id r =? m)%Z eqn:E'; simpl;
      rewrite ?E, ?E'; try reflexivity.
    apply Z.eqb_eq in E, E'; congruence.
Qed.

Lemma update_note_compose_witness :
  update_note (update_note Samples.db3 1 (str "a") [] []) 2 (str "b") [] []
  = update_note (update_note Samples.db3 2 (str "b") [] []) 1 (str "a") [] [].
Proof.
  apply (proj2 (update_note_compose Samples.db3 1 2 (str "a") [] []
                  (str "b") [] [])).
  discriminate.
Defined.

(** X6. Every state the program reaches from a new database file has its
    rows in rowid order, no id twice, and every id between 1 and the
    counter. *)
Theorem reachable_invariant (db : NoteDB.t) :
  Spec.reachable db ->
  Spec.rowid_order db
  /\ NoDup (map id (notes db))
  /\ Forall (fun r => (1 <= id r <= seq db)%Z) (notes db).
Proof.
  intros R; pose proof (reachable_rowid_order db R) as O.
  split; [exact O|]. split; [now apply rowid_order_nodup|].
  apply (reachable_seq db R).
Qed.

Lemma reachable_invariant_witness :
  NoDup (map id (notes (delete_note Samples.db3 2))).
Proof.
  apply (reachable_invariant (delete_note Samples.db3 2)).
  apply Spec.reach_delete, reachable_db3.
Defined.

(** X7. The list and the lookup agree: in a table in rowid order, looking up
    the id of a listed note gives back that very note; and whatever a
    lookup finds is in the list. *)
Theorem listed_note_lookup (db : NoteDB.t) (r : Row) :
  (Spec.rowid_order db -> In r (get_all_notes db) ->
   get_note_by_id db (id r) = Some r)
  /\ (forall n, get_note_by_id db n = Some r -> In r (get_all_notes db)).
Proof.
  unfold get_all_notes, get_note_by_id; split.
  - intros O Hin; apply rowid_order_find; [exact O|].
    eapply Permutation_in; [apply order_by_perm|exact Hin].
  - intros n H; apply find_some in H; destruct H as [Hin _].
    eapply Permutation_in; [symmetry; apply order_by_perm|exact Hin].
Qed.

Lemma listed_note_lookup_witness :
  get_note_by_id Samples.db3 3
  = Some (mkRow 3 (str "third") (str "call bob") (str "todo")
            Samples.one_past_noon).
Proof.
  apply (proj1 (listed_note_lookup Samples.db3
                  (mkRow 3 (str "third") (str "call bob") (str "todo")
                     Samples.one_past_noon))).
  - apply reachable_rowid_order, reachable_db3.
  - left; reflexivity.
Defined.

End StoreMore.

(** * More about the search *)

Section SearchMore.

Import NoteDB Sqlite.

Lemma tolower_percent (c d : N) :
  tolower c = tolower d -> (c =? percent)%N = (d =? percent)%N.
Proof.
  unfold tolower, percent; intros H.
  destruct (N.eqb_spec c 37), (N.eqb_spec d 37); try reflexivity; subst;
    exfalso;
    repeat match type of H with
           | context [if ?b then _ else _] => destruct b eqn:?
           end;
    repeat match goal with
           | E : (_ && _)%bool = true |- _ =>
               apply andb_true_iff in E; destruct E
           | E : (_ <=? _)%N = true |- _ => apply N.leb_le in E
           end; simpl in *; try discriminate; lia.
Qed.

Lemma tolower_underscore (c d : N) :
  tolower c = tolower d -> (c =? underscore)%N = (d =? underscore)%N.
Proof.
  unfold tolower, underscore; intros H.
  destruct (N.eqb_spec c 95), (N.eqb_spec d 95); try reflexivity; subst;
    exfalso;
    repeat match type of H with
           | context [if ?b then _ else _] => destruct b eqn:?
           end;
    repeat match goal with
           | E : (_ && _)%bool = true |- _ =>
               apply andb_true_iff in E; destruct E
           | E : (_ <=? _)%N = true |- _ => apply N.leb_le in E
           end; simpl in *; try discriminate; lia.
Qed.

Lemma tolower_nul (c d : N) :
  tolower c = tolower d -> (c =? 0)%N = (d =? 0)%N.
Proof.
  unfold tolower; intros H.
  destruct (N.eqb_spec c 0), (N.eqb_spec d 0); try reflexivity; subst;
    exfalso;
    repeat match type of H with
           | context [if ?b then _ else _] => destruct b eqn:?
           end;
    repeat match goal with
           | E : (_ && _)%bool = true |- _ =>
               apply andb_true_iff in E; destruct E
           | E : (_ <=? _)%N = true |- _ => apply N.leb_le in E
           end; simpl in *; try discriminate; lia.
Qed.

Lemma c_str_fold (p q : text) :
  map tolower p = map tolower q ->
  map tolower (c_str p) = map tolower (c_str q).
Proof.
  revert q; induction p as [|c p IH]; intros [|d q] H; try discriminate;
    [reflexivity|].
  simpl in H; injection H as Hc Hp; simpl.
  rewrite (tolower_nul c d Hc).
  destruct (d =? 0)%N; [reflexivity|].
  simpl; f_equal; auto.
Qed.

(** [patternCompare] does not see the case of the letters of the pattern. *)
Lemma like_match_fold (p q : text) :
  map tolower p = map tolower q ->
  forall s, like_match p s = like_match q s.
Proof.
  revert q; induction p as [|c p IH]; intros [|d q] H; try discriminate;
    [reflexivity|].
  simpl in H; injection H as Hc Hp.
  pose proof (tolower_percent c d Hc) as P.
  pose proof (tolower_underscore c d Hc) as U.
  destruct (c =? percent)%N eqn:Ec.
  - apply N.eqb_eq in Ec; symmetry in P; apply N.eqb_eq in P; subst c d.
    induction s as [|x s IHs].
    + rewrite (like_match_percent p []), (like_match_percent q []).
      now rewrite (IH q Hp).
    + rewrite (like_match_percent p (x :: s)), (like_match_percent q (x :: s)).
      now rewrite (IH q Hp), IHs.
  - intros s; simpl; rewrite Ec, <- P.
    destruct (c =? underscore)%N eqn:Eu; rewrite <- U.
    + destruct s; [reflexivity|apply IH, Hp].
    + destruct s; [reflexivity|].
      rewrite Hc; f_equal; apply IH, Hp.
Qed.

Lemma like_fold (x p q : text) :
  map tolower p = map tolower q -> like x p = like x q.
Proof.
  intros H; unfold like; apply like_match_fold, c_str_fold, H.
Qed.

Lemma like_match_percents (p s : text) :
  p <> [] -> forallb (N.eqb percent) p = true -> like_match p s = true.
Proof.
  induction p as [|c p IH]; [congruence|]; intros _ H.
  cbn [forallb] in H; apply andb_true_iff in H; destruct H as [Hc Hp].
  apply N.eqb_eq in Hc; subst c.
  destruct p as [|d p].
  - apply like_match_percent_nil.
  - rewrite like_match_percent, IH; [reflexivity|discriminate|exact Hp].
Qed.

Lemma c_str_percents (p : text) :
  forallb (N.eqb percent) p = true -> c_str p = p.
Proof.
  induction p as [|c p IH]; [reflexivity|]; cbn [forallb]; intros H.
  apply andb_true_iff in H; destruct H as [Hc Hp].
  apply N.eqb_eq in Hc; subst c; simpl; f_equal; auto.
Qed.

(** X8. Whatever the keyword, wildcards included, [search_notes] returns
    the hits among the notes [get_all_notes] lists, in the order in which
    [get_all_notes] lists them. *)
Theorem search_notes_sublist (db : NoteDB.t) (k : text) :
  search_notes db k = filter (Spec.hit k) (get_all_notes db)
  /\ incl (search_notes db k) (get_all_notes db).
Proof.
  assert (E : search_notes db k = filter (Spec.hit k) (get_all_notes db)).
  { unfold search_notes, get_all_notes; now rewrite filter_order_by. }
  split; [exact E|].
  rewrite E; intros r Hr; apply filter_In in Hr; tauto.
Qed.

(** X9. The case of the letters A-Z in the keyword makes no difference to
    what [search_notes] finds. *)
Theorem search_notes_keyword_case (db : NoteDB.t) (k k' : text) :
  map tolower k = map tolower k' ->
  search_notes db k = search_notes db k'.
Proof.
  intros H; unfold search_notes; f_equal.
  apply filter_ext; intros r.
  assert (P : map tolower (percent :: k ++ [percent])
              = map tolower (percent :: k' ++ [percent])).
  { simpl; f_equal; rewrite !map_app; now rewrite H. }
  now rewrite !(like_fold _ _ _ P).
Qed.

Lemma search_notes_keyword_case_witness :
  search_notes Samples.db3 (str "BREAD") = search_notes Samples.db3 (str "bread")
  /\ map id (search_notes Samples.db3 (str "BREAD")) = [2]%Z.
Proof.
  split; [|reflexivity].
  apply (search_notes_keyword_case Samples.db3 (str "BREAD") (str "bread")).
  reflexivity.
Defined.

(** X10. A keyword made of percent signs only is all wildcard:
    [search_notes] returns every note. *)
Theorem search_notes_percent_keyword (db : NoteDB.t) (k : text) :
  forallb (N.eqb percent) k = true ->
  search_notes db k = get_all_notes db.
Proof.
  intros H; unfold search_notes, get_all_notes; f_equal.
  rewrite <- (filter_true (notes db)) at 2.
  apply filter_ext; intros r.
  assert (P : forallb (N.eqb percent) (percent :: k ++ [percent]) = true).
  { cbn [forallb]; rewrite forallb_app, H; reflexivity. }
  unfold like; rewrite (c_str_percents _ P).
  rewrite !like_match_percents; try reflexivity; try exact P; discriminate.
Qed.

Lemma search_notes_percent_keyword_witness :
  search_notes Samples.db3 (str "%") = get_all_notes Samples.db3.
Proof.
  apply (search_notes_percent_keyword Samples.db3 (str "%")).
  reflexivity.
Defined.

End SearchMore.

(** * More about the application *)

Section AppMore.

Import Py NoteDB VoiceNoteApp.

Lemma or_else_nil (x : text) : or_else x [] = x.
Proof. now destruct x. Qed.

Lemma linebreak_isspace (c : N) :
  is_linebreak c = true -> isspace c = true.
Proof.
  unfold is_linebreak, isspace.
  rewrite !orb_true_iff, !andb_true_iff, !N.leb_le, !N.eqb_eq.
  lia.
Qed.

Lemma stored_find (rows : list Row) (r : Row) :
  In r rows -> exists r', find (fun x => (id x =? id r)%Z) rows = Some r'.
Proof.
  induction rows as [|x l IH]; simpl; [tauto|].
  intros [->|H].
  - rewrite Z.eqb_refl; eauto.
  - destruct (id x =? id r)%Z; eauto.
Qed.

Lemma stored_listed (d : NoteDB.t) (l : list Row) (n : Z) :
  incl l (notes d) -> In n (map id l) -> Spec.stored d n.
Proof.
  intros I H; apply in_map_iff in H; destruct H as (r & <- & Hr).
  apply (stored_find (notes d) r), I, Hr.
Qed.

Lemma incl_get_all_notes (d : NoteDB.t) : incl (get_all_notes d) (notes d).
Proof.
  intros r Hr; eapply Permutation_in; [apply order_by_perm|exact Hr].
Qed.

Lemma incl_search_notes (d : NoteDB.t) (k : text) :
  incl (NoteDB.search_notes d k) (notes d).
Proof.
  intros r Hr; unfold NoteDB.search_notes in Hr.
  eapply Permutation_in in Hr; [|apply order_by_perm].
  apply filter_In in Hr; tauto.
Qed.

Lemma stored_add (d : NoteDB.t) ts ti co ta (n : Z) :
  Spec.stored d n -> Spec.stored (fst (add_note d ts ti co ta)) n.
Proof.
  intros [r H]; exists r; unfold get_note_by_id in *; simpl.
  now apply find_app_hit.
Qed.

Lemma stored_update (d : NoteDB.t) m ti co ta (n : Z) :
  Spec.stored d n -> Spec.stored (update_note d m ti co ta) n.
Proof.
  intros [r H]; unfold Spec.stored, get_note_by_id in *; simpl.
  induction (notes d) as [|x l IH]; simpl in *; [discriminate|].
  rewrite update_row_id.
  destruct (id x =? n)%Z; eauto.
Qed.

(** What [save_note] does when there is something to save. *)
Lemma save_note_nonblank (ts : text) (a : VoiceNoteApp.t) :
  Spec.blank (content_text a) = false ->
  save_note ts a
  = Done
      (load_notes
         match current_note_id a with
         | None =>
             set_status
               (set_current_note_id
                  (set_db a
                     (fst (add_note (db a) ts (Spec.saved_title a)
                             (strip (content_text a))
                             (strip (tags_entry a)))))
                  (Some (next_rowid (db a))))
               (str "Saved new note")
         | Some n =>
             set_status
               (set_db a
                  (update_note (db a) n (Spec.saved_title a)
                     (strip (content_text a)) (strip (tags_entry a))))
               (str "Updated note")
         end
         None).
Proof.
  intros Hc.
  assert (T : truthy (strip (content_text a)) = true)
    by now rewrite truthy_strip, Hc.
  unfold save_note, Spec.saved_title; cbv zeta.
  rewrite strip_get_all, strip_idem, T, (truthy_strip (title_entry a)).
  cbn [negb].
  destruct (strip (content_text a)) as [|c0 rest] eqn:Ec; [discriminate|].
  rewrite (item0_splitlines (c0 :: rest)) by discriminate.
  destruct (Spec.blank (title_entry a)); cbn [negb];
    now destruct (current_note_id a).
Qed.

Lemma save_note_blank (ts : text) (a : VoiceNoteApp.t) :
  Spec.blank (content_text a) = true ->
  save_note ts a
  = Done (messagebox a (str "Save") (str "Note content is empty")).
Proof.
  intros H; unfold save_note.
  now rewrite truthy_strip, blank_get_all, H.
Qed.

Lemma consistent_load_notes (a : VoiceNoteApp.t) (l : option (list Row)) :
  (forall rows, l = Some rows -> incl rows (notes (db a))) ->
  (forall n, current_note_id a = Some n -> Spec.stored (db a) n) ->
  Forall (fun t => t <> []) (after_queue a) ->
  (listening a = true -> microphone a = true) ->
  Spec.rowid_order (db a) ->
  Spec.consistent (load_notes a l).
Proof.
  intros I C Q M O.
  assert (I' : incl match l with
                    | None => get_all_notes (db a)
                    | Some rows => rows
                    end (notes (db a))).
  { destruct l; [now apply I|apply incl_get_all_notes]. }
  constructor; unfold load_notes; simpl; auto.
  - now rewrite !length_map.
  - intros n; now apply stored_listed.
Qed.

End AppMore.

Section AppInvariant.

Import Py NoteDB VoiceNoteApp.

Ltac same_store H :=
  destruct H as [H1 H2 H3 H4 H5 H6]; constructor; simpl; auto.

Lemma consistent_init (d : NoteDB.t) (mic : bool) :
  Spec.rowid_order d -> Spec.consistent (VoiceNoteApp.init d mic).
Proof.
  intros O; unfold VoiceNoteApp.init.
  apply consistent_load_notes; simpl; auto; discriminate.
Qed.

Lemma consistent_save_note (ts : text) (a a' : VoiceNoteApp.t) :
  Spec.consistent a -> save_note ts a = Done a' -> Spec.consistent a'.
Proof.
  intros H E.
  destruct (Spec.blank (content_text a)) eqn:B.
  - rewrite (save_note_blank ts a B) in E; injection E as <-.
    same_store H.
  - rewrite (save_note_nonblank ts a B) in E; injection E as <-.
    destruct H as [H1 H2 H3 H4 H5 H6].
    apply consistent_load_notes; try discriminate;
      destruct (current_note_id a) as [n|] eqn:C; simpl; auto.
    + intros m Hm; apply stored_update, H3; now rewrite C in Hm.
    + intros m Hm; injection Hm as <-.
      eexists; apply get_added_note.
    + now apply rowid_order_update.
    + now apply rowid_order_add.
Qed.

Lemma consistent_on_select_note
    (sel : list nat) (a a' : VoiceNoteApp.t) :
  Spec.consistent a -> on_select_note sel a = Done a' -> Spec.consistent a'.
Proof.
  intros H E; unfold on_select_note in E.
  destruct sel as [|idx rest]; [injection E as <-; exact H|].
  destruct (item (notes_map a) idx) as [n|e]; [|discriminate].
  destruct (get_note_by_id (db a) n) as [row|] eqn:G;
    injection E as <-; [|exact H].
  destruct H as [H1 H2 H3 H4 H5 H6]; constructor; simpl; auto.
  intros m Hm; injection Hm as <-.
  exists row; unfold get_note_by_id in *.
  now rewrite (find_id _ _ _ G).
Qed.

Lemma consistent_delete_note
    (sel : list nat) (confirm : bool) (a a' : VoiceNoteApp.t) :
  Spec.consistent a -> VoiceNoteApp.delete_note sel confirm a = Done a' ->
  Spec.consistent a'.
Proof.
  intros H E; unfold VoiceNoteApp.delete_note in E.
  destruct sel as [|idx rest]; [injection E as <-; same_store H|].
  destruct (item (notes_map a) idx) as [n|e]; [|discriminate].
  destruct confirm; injection E as <-; [|same_store H].
  destruct H as [H1 H2 H3 H4 H5 H6]; constructor; simpl; auto.
  - now rewrite !length_map.
  - intros m Hm.
    eapply stored_listed; [|exact Hm].
    apply incl_get_all_notes.
  - discriminate.
  - now apply rowid_order_delete.
Qed.

Lemma consistent_perform
    (sr tts : bool) (act : action) (a a' : VoiceNoteApp.t) :
  Spec.consistent a -> perform sr tts act a = Done a' -> Spec.consistent a'.
Proof.
  intros H E; destruct act; simpl in E;
    try (injection E as <-).
  - same_store H.
  - same_store H.
  - same_store H.
  - same_store H.
  - destruct H as [H1 H2 H3 H4 H5 H6]; unfold VoiceNoteApp.search_notes.
    destruct (negb (truthy (strip (search_entry a))));
      apply consistent_load_notes; auto; try discriminate.
    intros rows R; injection R as <-; apply incl_search_notes.
  - same_store H; discriminate.
  - eapply consistent_delete_note; eauto.
  - unfold export_note.
    destruct (current_note_id a) as [n|]; [|same_store H].
    destruct (get_note_by_id (db a) n); [|same_store H].
    destruct (truthy _); [same_store H|exact H].
  - eapply consistent_on_select_note; eauto.
  - unfold toggle_recording.
    destruct (negb sr); [same_store H|].
    destruct (negb (microphone a)) eqn:M; [same_store H|].
    apply negb_false_iff in M.
    destruct (negb (listening a)); [|same_store H; discriminate].
    destruct start_error; same_store H.
  - unfold play_note.
    destruct (negb (truthy _)); [same_store H|].
    destruct (negb tts); [same_store H|exact H].
  - eapply consistent_save_note; eauto.
  - destruct H as [H1 H2 H3 H4 H5 H6].
    apply consistent_load_notes; auto; discriminate.
  - unfold _callback.
    destruct (truthy (callback_text r)) eqn:T; [|exact H].
    same_store H.
    apply Forall_app; split; [exact H4|].
    constructor; [|constructor].
    intros N; rewrite N in T; discriminate.
  - unfold run_after.
    destruct (after_queue a) as [|t q] eqn:Q; [exact H|].
    unfold _append_text.
    destruct H as [H1 H2 H3 H4 H5 H6]; rewrite Q in H4.
    inversion_clear H4.
    destruct (truthy _); constructor; simpl; auto.
Qed.

Lemma consistent_perform_all
    (sr tts : bool) (acts : list action) (a a' : VoiceNoteApp.t) :
  Spec.consistent a -> perform_all sr tts acts a = Done a' ->
  Spec.consistent a'.
Proof.
  revert a; induction acts as [|act acts IH]; intros a H E; simpl in E.
  - now injection E as <-.
  - destruct (perform sr tts act a) as [a1|e] eqn:P; [|discriminate].
    eapply IH; [|exact E].
    eapply consistent_perform; eauto.
Qed.

(** X11. On a database whose table is in rowid order, whatever the user
    and the recognizer do, after every handler that returned the list box
    and the id list have the same length, every listed id and the id of the
    current note name a stored note, no empty text waits to be appended,
    recording is only on with a microphone, and the table is still in rowid
    order. *)
Theorem application_stays_consistent
    (sr tts mic : bool) (d : NoteDB.t) (acts : list action)
    (a' : VoiceNoteApp.t) :
  Spec.rowid_order d ->
  perform_all sr tts acts (VoiceNoteApp.init d mic) = Done a' ->
  Spec.consistent a'.
Proof.
  intros O E; eapply consistent_perform_all; [|exact E].
  now apply consistent_init.
Qed.

Lemma application_stays_consistent_witness :
  exists a',
    perform_all true true
      [EditContent (str "buy milk"); ClickSave Samples.noon;
       SelectNote [0%nat]; ClickDelete [0%nat] true]
      Samples.app0 = Done a'
    /\ Spec.consistent a'.
Proof.
  eexists; split; [vm_compute; reflexivity|].
  eapply (application_stays_consistent true true true NoteDB.empty
            [EditContent (str "buy milk"); ClickSave Samples.noon;
             SelectNote [0%nat]; ClickDelete [0%nat] true]).
  - constructor.
  - vm_compute; reflexivity.
Defined.

(** X12. In such a state no handler raises as long as the line it is told
    is selected is a line of the list box: the index into the id list is
    in range, and [save_note] always finds a first line to take the title
    from. *)
Theorem perform_never_raises
    (sr tts : bool) (act : action) (a : VoiceNoteApp.t) :
  Spec.consistent a ->
  Spec.selection_in_range act a ->
  exists a', perform sr tts act a = Done a'.
Proof.
  intros H R.
  assert (I : forall idx, (idx < List.length (notes_list a))%nat ->
                exists n, item (notes_map a) idx = Done n).
  { intros idx L; unfold item.
    destruct (nth_error (notes_map a) idx) eqn:N; [eauto|].
    apply nth_error_None in N.
    rewrite (Spec.list_in_step H) in L; lia. }
  destruct act; simpl; eauto.
  - unfold VoiceNoteApp.delete_note.
    destruct sel as [|idx rest]; [eauto|].
    destruct (I idx R) as [n ->].
    destruct confirm; eauto.
  - unfold on_select_note.
    destruct sel as [|idx rest]; [eauto|].
    destruct (I idx R) as [n ->].
    destruct (get_note_by_id (db a) n); eauto.
  - destruct (Spec.blank (content_text a)) eqn:B.
    + rewrite (save_note_blank ts a B); eauto.
    + rewrite (save_note_nonblank ts a B); eauto.
Qed.

Lemma perform_never_raises_witness :
  exists a',
    perform true true (SelectNote [2%nat]) (load_notes Samples.searching None)
    = Done a'.
Proof.
  apply (perform_never_raises true true (SelectNote [2%nat])
           (load_notes Samples.searching None)).
  - apply consistent_load_notes; simpl; auto; try discriminate.
    apply reachable_rowid_order, reachable_db3.
  - simpl; lia.
Defined.

(** X13. Only Save and a confirmed Delete write to the database: after
    any other handler the store is exactly what it was. *)
Theorem store_written_by_save_and_delete_only
    (sr tts : bool) (act : action) (a a' : VoiceNoteApp.t) :
  Spec.writes_store act = false ->
  perform sr tts act a = Done a' ->
  db a' = db a.
Proof.
  intros W E; destruct act; simpl in W, E; try discriminate;
    try (injection E as <-); try reflexivity.
  - unfold VoiceNoteApp.search_notes.
    now destruct (negb (truthy (strip (search_entry a)))).
  - subst confirm; unfold VoiceNoteApp.delete_note in E.
    destruct sel as [|idx rest]; [now injection E as <-|].
    destruct (item (notes_map a) idx); [|discriminate].
    now injection E as <-.
  - unfold export_note.
    destruct (current_note_id a) as [n|]; [|reflexivity].
    destruct (get_note_by_id (db a) n); [|reflexivity].
    now destruct (truthy _).
  - unfold on_select_note in E.
    destruct sel as [|idx rest]; [now injection E as <-|].
    destruct (item (notes_map a) idx) as [n|]; [|discriminate].
    destruct (get_note_by_id (db a) n); now injection E as <-.
  - unfold toggle_recording.
    destruct (negb sr); [reflexivity|].
    destruct (negb (microphone a)); [reflexivity|].
    destruct (negb (listening a)); [|reflexivity].
    now destruct start_error.
  - unfold play_note.
    destruct (negb (truthy _)); [reflexivity|].
    now destruct (negb tts).
  - unfold _callback; now destruct (truthy _).
  - unfold run_after; destruct (after_queue a); [reflexivity|].
    unfold _append_text; now destruct (truthy _).
Qed.

Lemma store_written_by_save_and_delete_only_witness :
  exists a',
    perform true true (ClickDelete [0%nat] false)
      (load_notes Samples.searching None) = Done a'
    /\ db a' = Samples.db3.
Proof.
  eexists; split; [vm_compute; reflexivity|].
  apply (store_written_by_save_and_delete_only true true
           (ClickDelete [0%nat] false)
           (load_notes Samples.searching None) _ eq_refl eq_refl).
Defined.

End AppInvariant.

Section EditorMore.

Import Py NoteDB VoiceNoteApp.

Lemma select_stored_note
    (a : VoiceNoteApp.t) (idx : nat) (rest : list nat) (r : Row) :
  nth_error (notes_map a) idx = Some (id r) ->
  get_note_by_id (db a) (id r) = Some r ->
  exists a',
    on_select_note (idx :: rest) a = Done a'
    /\ current_note_id a' = Some (id r)
    /\ title_entry a' = title r
    /\ tags_entry a' = tags r
    /\ content_text a' = content r
    /\ db a' = db a.
Proof.
  intros N G; unfold on_select_note, item.
  rewrite N, G; eexists; split; [reflexivity|]; simpl.
  now rewrite !or_else_nil.
Qed.

(** X14. Selecting a line of a freshly loaded list loads the note that
    line shows: in a table in rowid order, after [load_notes] line [idx]
    of the list box displays the [idx]-th note of [get_all_notes], and
    [on_select_note] on that line makes it the current note and puts its
    title, tags and content into the fields, leaving the store alone. *)
Theorem select_listed_note
    (a : VoiceNoteApp.t) (idx : nat) (rest : list nat) (r : Row) :
  Spec.rowid_order (db a) ->
  nth_error (get_all_notes (db a)) idx = Some r ->
  nth_error (notes_list (load_notes a None)) idx = Some (display r)
  /\ exists a',
       on_select_note (idx :: rest) (load_notes a None) = Done a'
       /\ current_note_id a' = Some (id r)
       /\ title_entry a' = title r
       /\ tags_entry a' = tags r
       /\ content_text a' = content r
       /\ db a' = db a.
Proof.
  intros O N; split.
  - unfold load_notes; simpl; now rewrite nth_error_map, N.
  - apply (select_stored_note (load_notes a None)).
    + unfold load_notes; simpl; now rewrite nth_error_map, N.
    + apply rowid_order_find; [exact O|].
      apply incl_get_all_notes; eapply nth_error_In; exact N.
Qed.

Lemma select_listed_note_witness :
  exists a',
    on_select_note [1%nat] (load_notes Samples.searching None) = Done a'
    /\ current_note_id a' = Some 1%Z
    /\ title_entry a' = str "first"
    /\ content_text a' = str "milk".
Proof.
  destruct (select_listed_note Samples.searching 1 []
              (mkRow 1 (str "first") (str "milk") (str "shop") Samples.noon)
              (reachable_rowid_order _ reachable_db3) eq_refl)
    as (_ & a' & E & C & T & _ & X & _).
  exists a'; repeat split; assumption.
Defined.

(** X15. Save, then select: after [save_note] has stored a new note, the
    note is on some line of the list box, and selecting that line fills the
    fields with what was stored - the title that was typed, stripped, or
    the one taken from the first line; the tags and the editor text,
    stripped. *)
Theorem save_then_select (ts : text) (a : VoiceNoteApp.t) :
  current_note_id a = None ->
  Spec.blank (content_text a) = false ->
  exists a1 idx a2,
    save_note ts a = Done a1
    /\ nth_error (notes_map a1) idx = Some (next_rowid (db a))
    /\ on_select_note [idx] a1 = Done a2
    /\ current_note_id a2 = Some (next_rowid (db a))
    /\ title_entry a2 = Spec.saved_title a
    /\ tags_entry a2 = strip (tags_entry a)
    /\ content_text a2 = strip (content_text a)
    /\ db a2 = db a1.
Proof.
  intros C B; rewrite (save_note_nonblank ts a B), C.
  set (row := mkRow (next_rowid (db a)) (Spec.saved_title a)
                (strip (content_text a)) (strip (tags_entry a)) ts).
  set (a0 := set_status _ _).
  assert (G : get_note_by_id (db a0) (id row) = Some row)
    by apply get_added_note.
  assert (L : In (id row) (notes_map (load_notes a0 None))).
  { unfold load_notes; simpl notes_map; apply in_map.
    apply (proj2 (A := True)); split; [exact I|].
    apply find_some in G; destruct G as [Hin _].
    eapply Permutation_in; [symmetry; apply order_by_perm|exact Hin]. }
  apply In_nth_error in L; destruct L as [idx L].
  destruct (select_stored_note (load_notes a0 None) idx [] row L G)
    as (a2 & E & H1 & H2 & H3 & H4 & H5).
  exists (load_notes a0 None), idx, a2.
  repeat split; assumption.
Qed.

Lemma save_then_select_witness :
  exists a1 idx a2,
    save_note Samples.noon (Samples.typed (str "  buy milk ")) = Done a1
    /\ nth_error (notes_map a1) idx = Some 1%Z
    /\ on_select_note [idx] a1 = Done a2
    /\ title_entry a2 = str "buy milk"
    /\ content_text a2 = str "buy milk".
Proof.
  destruct (save_then_select Samples.noon (Samples.typed (str "  buy milk "))
              eq_refl eq_refl)
    as (a1 & idx & a2 & E & N & S & _ & T & _ & X & _).
  exists a1, idx, a2; repeat split; assumption.
Defined.

Lemma update_added_note (d : NoteDB.t) (ts ti co ta : text) :
  update_note (fst (add_note d ts ti co ta)) (next_rowid d) ti co ta
  = fst (add_note d ts ti co ta).
Proof.
  unfold update_note; simpl; f_equal.
  rewrite map_app; simpl; rewrite Z.eqb_refl; f_equal.
  rewrite <- (map_id (notes d)) at 2.
  apply map_ext_in; intros r Hr.
  apply next_rowid_fresh in Hr.
  assert (E : (id r =? next_rowid d)%Z = false) by (apply Z.eqb_neq; lia).
  now rewrite E.
Qed.

Lemma update_twice (d : NoteDB.t) (n : Z) (ti co ta ti' co' ta' : text) :
  update_note (update_note d n ti co ta) n ti' co' ta'
  = update_note d n ti' co' ta'.
Proof.
  unfold update_note; simpl; f_equal.
  rewrite map_map; apply map_ext; intros r.
  destruct (id r =? n)%Z eqn:E; simpl; now rewrite E.
Qed.

(** X16. Saving again without touching the fields writes nothing new: the
    second [save_note] leaves the store, the current note and the listed
    ids exactly as the first left them, so no second note appears and the
    creation time stays. *)
Theorem save_note_twice (ts ts' : text) (a : VoiceNoteApp.t) :
  exists a1 a2,
    save_note ts a = Done a1
    /\ save_note ts' a1 = Done a2
    /\ db a2 = db a1
    /\ current_note_id a2 = current_note_id a1
    /\ notes_map a2 = notes_map a1.
Proof.
  destruct (Spec.blank (content_text a)) eqn:B.
  - rewrite (save_note_blank ts a B).
    eexists; eexists; split; [reflexivity|].
    rewrite save_note_blank by exact B.
    repeat split.
  - rewrite (save_note_nonblank ts a B).
    destruct (current_note_id a) as [n|] eqn:C.
    + set (a1 := load_notes (set_status (set_db a _) _) None).
      exists a1; eexists; split; [reflexivity|].
      rewrite (save_note_nonblank ts' a1 B).
      change (current_note_id a1) with (current_note_id a); rewrite C.
      split; [reflexivity|].
      change (Spec.saved_title a1) with (Spec.saved_title a).
      change (content_text a1) with (content_text a).
      change (tags_entry a1) with (tags_entry a).
      assert (E : update_note (db a1) n (Spec.saved_title a)
                    (strip (content_text a)) (strip (tags_entry a))
                  = db a1) by apply update_twice.
      unfold load_notes at 1 2 3; cbn [db current_note_id notes_map
        set_notes_list set_status set_db].
      rewrite E; repeat split; exact C.
    + set (a1 := load_notes (set_status (set_current_note_id _ _) _) None).
      exists a1; eexists; split; [reflexivity|].
      rewrite (save_note_nonblank ts' a1 B).
      change (current_note_id a1) with (Some (next_rowid (db a))).
      split; [reflexivity|].
      change (Spec.saved_title a1) with (Spec.saved_title a).
      change (content_text a1) with (content_text a).
      change (tags_entry a1) with (tags_entry a).
      assert (E : update_note (db a1) (next_rowid (db a))
                    (Spec.saved_title a)
                    (strip (content_text a)) (strip (tags_entry a))
                  = db a1) by apply update_added_note.
      unfold load_notes at 1 2 3; cbn [db current_note_id notes_map
        set_notes_list set_status set_db].
      rewrite E; repeat split.
Qed.

(** X17. A confirmed Delete of a listed line removes the note on that line
    from the store and from the list box, leaves every other note as it
    was, and leaves a blank editor with no current note. *)
Theorem delete_note_confirmed
    (a : VoiceNoteApp.t) (idx : nat) (rest : list nat) (n : Z) :
  nth_error (notes_map a) idx = Some n ->
  exists a',
    VoiceNoteApp.delete_note (idx :: rest) true a = Done a'
    /\ get_note_by_id (db a') n = None
    /\ ~ In n (notes_map a')
    /\ (forall m, m <> n ->
          get_note_by_id (db a') m = get_note_by_id (db a) m)
    /\ current_note_id a' = None
    /\ title_entry a' = [] /\ tags_entry a' = [] /\ content_text a' = [].
Proof.
  intros N; unfold VoiceNoteApp.delete_note, item; rewrite N.
  eexists; split; [reflexivity|]; simpl.
  assert (G : forall r, In r (notes (NoteDB.delete_note (db a) n)) ->
                id r <> n).
  { simpl; intros r Hr; apply filter_In in Hr; destruct Hr as [_ Hr].
    now apply negb_true_iff, Z.eqb_neq in Hr. }
  repeat split.
  - unfold get_note_by_id.
    destruct (find _ _) as [r|] eqn:E; [|reflexivity].
    pose proof (find_id _ _ _ E) as Hid.
    apply find_some in E; destruct E as [Hin _].
    now apply G in Hin.
  - intros Hin; apply in_map_iff in Hin; destruct Hin as (r & E & Hr).
    apply incl_get_all_notes in Hr; now apply G in Hr.
  - intros m Hm; unfold get_note_by_id; simpl.
    induction (notes (db a)) as [|x l IH]; simpl; [reflexivity|].
    destruct (id x =? n)%Z eqn:E; simpl.
    + apply Z.eqb_eq in E.
      assert (E' : (id x =? m)%Z = false) by (apply Z.eqb_neq; lia).
      now rewrite E'.
    + now rewrite IH.
Qed.

Lemma delete_note_confirmed_witness :
  exists a',
    VoiceNoteApp.delete_note [0%nat] true (load_notes Samples.searching None)
    = Done a'
    /\ get_note_by_id (db a') 3 = None
    /\ notes_map a' = [1; 2]%Z.
Proof.
  destruct (delete_note_confirmed (load_notes Samples.searching None)
              0 [] 3 eq_refl)
    as (a' & E & G & _).
  exists a'; split; [exact E|]. split; [exact G|].
  injection E as <-; reflexivity.
Defined.

End EditorMore.

Section SessionMore.

Import Py NoteDB VoiceNoteApp.

Lemma append_fragments_prefix (ts : list text) (b : text) :
  exists suffix, fold_left Spec.append_fragment ts b = b ++ suffix.
Proof.
  revert b; induction ts as [|t ts IH]; intros b; simpl.
  - exists []; now rewrite app_nil_r.
  - destruct (IH (Spec.append_fragment b t)) as [s ->].
    unfold Spec.append_fragment; destruct (Spec.blank b);
      rewrite <- app_assoc; eauto.
Qed.

Lemma append_fragments_spaced (ts : list text) (b : text) :
  Spec.blank b = false ->
  fold_left Spec.append_fragment ts b = b ++ Spec.spaced ts.
Proof.
  revert b; induction ts as [|t ts IH]; intros b B; simpl.
  - now rewrite app_nil_r.
  - unfold Spec.append_fragment at 2; rewrite B.
    rewrite IH.
    + now rewrite <- app_assoc.
    + unfold Spec.blank in *; rewrite forallb_app, B; reflexivity.
Qed.

(** X18. Dictation only adds to the editor: whatever phrases come in and
    however the main loop takes its turns, the text the editor held before
    is still there, unchanged, at the start of what it holds afterwards. *)
Theorem session_keeps_editor_text (es : list event) (a : VoiceNoteApp.t) :
  exists suffix,
    content_text (drain (run es a)) = content_text a ++ suffix.
Proof.
  destruct (drain_settled (run es a)) as (-> & _).
  destruct (run_settled es a) as (-> & _).
  unfold Spec.settled; rewrite <- fold_left_app.
  apply append_fragments_prefix.
Qed.

(** X19. Dictating into an empty editor gives the fragments separated by
    single spaces, provided the first fragment is not just whitespace: the
    first fragment as it is, each later one behind one space. *)
Theorem session_joins_with_spaces
    (es : list event) (a : VoiceNoteApp.t) (t : text) (ts : list text) :
  content_text a = [] ->
  after_queue a = [] ->
  Spec.fragments es = t :: ts ->
  Spec.blank t = false ->
  content_text (drain (run es a)) = t ++ Spec.spaced ts.
Proof.
  intros C Q F B.
  destruct (drain_settled (run es a)) as (-> & _).
  destruct (run_settled es a) as (-> & _).
  unfold Spec.settled; rewrite C, Q, F; simpl.
  now apply append_fragments_spaced.
Qed.

Lemma session_joins_with_spaces_witness :
  content_text
    (drain (run [Phrase (Recognized (str "call")); MainLoop;
                 Phrase UnknownValueError;
                 Phrase (Recognized (str "bob"))] Samples.app0))
  = str "call bob".
Proof.
  apply (session_joins_with_spaces
           [Phrase (Recognized (str "call")); MainLoop;
            Phrase UnknownValueError;
            Phrase (Recognized (str "bob"))] Samples.app0
           (str "call") [str "bob"]); reflexivity.
Defined.

Lemma first_line_no_break (s : text) :
  forallb (fun c => negb (is_linebreak c)) (Spec.first_line s) = true.
Proof.
  induction s as [|c s IH]; simpl; [reflexivity|].
  destruct (is_linebreak c) eqn:E; simpl; [reflexivity|].
  now rewrite E.
Qed.

Lemma forallb_firstn (f : N -> bool) (n : nat) (s : text) :
  forallb f s = true -> forallb f (firstn n s) = true.
Proof.
  revert s; induction n as [|n IH]; intros [|c s]; simpl; auto.
  intros H; apply andb_true_iff in H; destruct H as [-> H]; simpl; auto.
Qed.

Lemma in_firstn (n : nat) (s : text) (c : N) :
  In c (firstn n s) -> In c s.
Proof.
  intros H; rewrite <- (firstn_skipn n s); apply in_or_app; now left.
Qed.

Lemma get_updated_fields (d : NoteDB.t) (n : Z) (ti co ta : text) (r : Row) :
  get_note_by_id (update_note d n ti co ta) n = Some r ->
  title r = ti /\ content r = co /\ tags r = ta.
Proof.
  unfold get_note_by_id, update_note; simpl.
  induction (notes d) as [|x l IH]; simpl; [discriminate|].
  destruct (id x =? n)%Z eqn:E; simpl; rewrite E; [|exact IH].
  intros H; injection H as <-; auto.
Qed.

(** X20. What [save_note] stores has a fixed shape. Whenever it stores
    anything, the content of the current note is the editor text stripped:
    not empty, with no whitespace at either end; its title is not empty;
    and a title defaulted from the content is at most 60 characters long
    and holds no line break. *)
Theorem saved_note_shape
    (ts : text) (a a' : VoiceNoteApp.t) (n : Z) (r : Row) :
  Spec.blank (content_text a) = false ->
  save_note ts a = Done a' ->
  current_note_id a' = Some n ->
  get_note_by_id (db a') n = Some r ->
  content r = strip (content_text a)
  /\ content r <> []
  /\ strip (content r) = content r
  /\ title r = Spec.saved_title a
  /\ title r <> []
  /\ (Spec.blank (title_entry a) = true ->
      (List.length (title r) <= 60)%nat
      /\ forallb (fun c => negb (is_linebreak c)) (title r) = true).
Proof.
  intros B E C G.
  rewrite (save_note_nonblank ts a B) in E; injection E as <-.
  assert (F : title r = Spec.saved_title a
              /\ content r = strip (content_text a)).
  { destruct (current_note_id a) as [m|] eqn:Cm;
      cbn [db current_note_id load_notes set_notes_list set_status set_db
           set_current_note_id] in C, G.
    - rewrite Cm in C; injection C as <-.
      apply get_updated_fields in G; tauto.
    - injection C as <-.
      assert (R : Some r
                  = Some (mkRow (next_rowid (db a)) (Spec.saved_title a)
                            (strip (content_text a)) (strip (tags_entry a))
                            ts))
        by (rewrite <- G; apply get_added_note).
      injection R as ->; auto. }
  destruct F as [Ft Fc].
  assert (T : truthy (strip (content_text a)) = true)
    by now rewrite truthy_strip, B.
  destruct (strip (content_text a)) as [|c0 rest] eqn:Ec; [discriminate|].
  pose proof (strip_head (content_text a) c0 rest Ec) as Hc0.
  rewrite Fc, Ft; repeat split.
  - discriminate.
  - rewrite <- Ec; apply strip_idem.
  - unfold Spec.saved_title; rewrite Ec.
    destruct (Spec.blank (title_entry a)) eqn:Bt.
    + simpl; destruct (is_linebreak c0) eqn:L; [|discriminate].
      apply linebreak_isspace in L; congruence.
    + intros N.
      pose proof (truthy_strip (title_entry a)) as T'.
      rewrite N, Bt in T'; discriminate.
  - unfold Spec.saved_title; rewrite H; apply firstn_le_length.
  - unfold Spec.saved_title; rewrite H.
    apply forallb_firstn, first_line_no_break.
Qed.

Lemma saved_note_shape_witness :
  exists a' r,
    save_note Samples.noon
      (Samples.typed (str " eggs and flour  ")) = Done a'
    /\ get_note_by_id (db a') 1 = Some r
    /\ content r = str "eggs and flour"
    /\ title r <> [].
Proof.
  eexists; eexists.
  split; [vm_compute; reflexivity|].
  split; [vm_compute; reflexivity|].
  destruct (saved_note_shape Samples.noon
              (Samples.typed (str " eggs and flour  ")) _ 1
              (mkRow 1 (str "eggs and flour") (str "eggs and flour") []
                 Samples.noon)
              eq_refl eq_refl eq_refl eq_refl)
    as (H1 & _ & _ & _ & H5 & _).
  split; [reflexivity|exact H5].
Defined.

(** X21. The file name [export_note] proposes is made for the file system:
    it holds no space, it ends in [.txt] behind a stem that is not empty,
    and it is at most 44 characters long. *)
Theorem export_default_name_shape (row : Row) :
  ~ In 32%N (export_default_name row)
  /\ (exists stem,
        export_default_name row = stem ++ str ".txt" /\ stem <> [])
  /\ (List.length (export_default_name row) <= 44)%nat.
Proof.
  unfold export_default_name, slice_to.
  set (t := or_else (title row) (str "note")).
  assert (Tn : t <> []).
  { unfold t, or_else; destruct (title row); simpl; discriminate. }
  repeat split.
  - intros H; apply in_app_or in H; destruct H as [H|H].
    + apply in_firstn in H.
      unfold replace_char in H; apply in_map_iff in H.
      destruct H as (c & E & _).
      destruct (N.eqb_spec c 32); [discriminate|congruence].
    + vm_compute in H; intuition discriminate.
  - eexists; split; [reflexivity|].
    destruct t as [|c t]; [congruence|]; simpl; discriminate.
  - rewrite length_app.
    pose proof (firstn_le_length 40 (replace_char 32 95 t)) as L.
    change (List.length (str ".txt")) with 4%nat; lia.
Qed.

End SessionMore.

Section ListingMore.

Import NoteDB.

Lemma order_by_snoc_latest (rows : list Row) (r : Row) :
  Forall (fun x => Spec.created_before x r) rows ->
  order_by_created_at_desc (rows ++ [r])
  = r :: order_by_created_at_desc rows.
Proof.
  unfold order_by_created_at_desc; rewrite fold_right_app; simpl.
  induction 1 as [|x l Hx _ IH]; simpl; [reflexivity|].
  rewrite IH; simpl.
  unfold Spec.created_before in Hx; unfold Sqlite.text_ltb.
  now rewrite Hx.
Qed.

Lemma sorter_insert_map (f : Row -> Row) (r : Row) (l : list Row) :
  (forall x, created_at (f x) = created_at x) ->
  sorter_insert (f r) (map f l) = map f (sorter_insert r l).
Proof.
  intros H; induction l as [|x l IH]; simpl; [reflexivity|].
  rewrite !H.
  destruct (Sqlite.text_ltb (created_at r) (created_at x)); simpl;
    [now rewrite IH|reflexivity].
Qed.

Lemma order_by_map (f : Row -> Row) (rows : list Row) :
  (forall x, created_at (f x) = created_at x) ->
  order_by_created_at_desc (map f rows)
  = map f (order_by_created_at_desc rows).
Proof.
  intros H; induction rows as [|r rows IH]; simpl; [reflexivity|].
  now rewrite IH, sorter_insert_map.
Qed.

(** X22. A note added with a clock reading later than the creation time of
    every stored note comes first in [get_all_notes], in front of the list
    as it was. *)
Theorem add_note_listed_first (db : NoteDB.t) (ts ti co ta : text) :
  Forall (fun x => Sqlite.text_compare (created_at x) ts = Lt) (notes db) ->
  get_all_notes (fst (add_note db ts ti co ta))
  = mkRow (next_rowid db) ti co ta ts :: get_all_notes db.
Proof.
  intros H; unfold get_all_notes; simpl.
  now apply order_by_snoc_latest.
Qed.

Lemma add_note_listed_first_witness :
  map id (get_all_notes
            (fst (add_note Samples.db3 (str "2024-05-02 09:30:00")
                    (str "t") (str "c") [])))
  = [4; 3; 1; 2]%Z.
Proof.
  rewrite (add_note_listed_first Samples.db3 (str "2024-05-02 09:30:00")
             (str "t") (str "c") []).
  - reflexivity.
  - repeat constructor.
Defined.

(** X23. Editing a note does not move it: after [update_note] the list of
    [get_all_notes] is the old list with the edited rows replaced in
    place, so the ids come in the same order as before. *)
Theorem update_note_keeps_listing
    (db : NoteDB.t) (n : Z) (ti co ta : text) :
  get_all_notes (update_note db n ti co ta)
  = map (fun r => if (id r =? n)%Z
                  then mkRow (id r) ti co ta (created_at r) else r)
        (get_all_notes db)
  /\ map id (get_all_notes (update_note db n ti co ta))
     = map id (get_all_notes db).
Proof.
  assert (E : get_all_notes (update_note db n ti co ta)
              = map (fun r => if (id r =? n)%Z
                              then mkRow (id r) ti co ta (created_at r)
                              else r)
                    (get_all_notes db)).
  { unfold get_all_notes, update_note; simpl.
    apply order_by_map; intros x; now destruct (id x =? n)%Z. }
  split; [exact E|].
  rewrite E, map_map; apply map_ext; intros r.
  apply update_row_id.
Qed.

(** X24. Deleting a note leaves the others listed in the order they had:
    [get_all_notes] after [delete_note db n] is the old list without the
    rows of id [n]. *)
Theorem delete_note_keeps_listing (db : NoteDB.t) (n : Z) :
  get_all_notes (delete_note db n)
  = filter (fun r => negb (id r =? n)%Z) (get_all_notes db).
Proof.
  unfold get_all_notes, delete_note; simpl.
  now rewrite filter_order_by.
Qed.

End ListingMore.
